(** * identity-reporting: the report aggregation pipeline

    A shallow embedding of the data pipeline of the reporting dashboard:
    the daily-auths report ([process], [loadData], [tabulate],
    [tabulateSumByAgency]), the daily-dropoffs funnel report ([process],
    [funnelSteps], [toStepCounts], [aggregate], [tabulate], [loadData]),
    the later funnel table component, and the account-deletions and
    daily-registrations tables.

    Conventions of the embedding:
    - a JavaScript [Date] is its [valueOf()], milliseconds since the epoch,
      as a [Z]; counts are integers ([Z]);
    - a JavaScript string is a [string]; [<] on strings compares code
      units, which is [String.compare];
    - the result of a division is a [JsNumber]: NaN, the two infinities, or
      an exact rational (rounding of finite quotients is not modelled);
    - a [Map] or d3 [InternMap] is an association list in insertion order;
    - a promise is a settled promise: the moment it settles and its
      outcome;
    - the local clock of the browser is UTC shifted by a fixed offset. *)

From Stdlib Require Import ZArith List String Ascii Bool Lia QArith.
From Stdlib Require Import Sorted Permutation DecimalString.
Import ListNotations.

Local Open Scope string_scope.
Local Open Scope list_scope.
Local Open Scope Z_scope.

Set Implicit Arguments.

(* ================================================================== *)
(** * JavaScript built-ins used by the reports *)
(* ================================================================== *)

Module Js.

(** ** Truthiness of the values the code tests with [||] and [!] *)

(** A string-valued field that may be absent ([undefined] or [null], as
    d3's [autoType] and JSON leave it): falsy when absent or empty. *)
Definition truthy_str (s : option string) : bool :=
  match s with
  | None => false
  | Some s => negb (String.eqb s "")
  end.

(** [s || dflt] on such a field. *)
Definition or_str (s : option string) (dflt : string) : string :=
  match s with
  | Some s' => if truthy_str s then s' else dflt
  | None => dflt
  end.

(** An optional number ([filterIal]): falsy when absent or zero. *)
Definition truthy_num (n : option Z) : bool :=
  match n with
  | None => false
  | Some n => negb (n =? 0)
  end.

(** [n || 0] on an integer count. *)
Definition or0 (n : Z) : Z := if n =? 0 then 0 else n.

(** [String(n)] for an integer. *)
Definition String_of (n : Z) : string := NilZero.string_of_int (Z.to_int n).

(** ** Numbers that come out of a division *)

Inductive JsNumber : Type :=
| NaN
| PosInfinity
| NegInfinity
| Finite (q : Q).

(** [a / b] for integers [a] and [b]. The finite quotient is kept as a
    reduced fraction. *)
Definition div (a b : Z) : JsNumber :=
  if b =? 0 then
    if a =? 0 then NaN
    else if 0 <? a then PosInfinity else NegInfinity
  else Finite (Qred (Qmake (a * Z.sgn b) (Z.to_pos (Z.abs b)))).

Definition zero : JsNumber := Finite (Qmake 0 1).

(** Falsy numbers are NaN and zero; the infinities are truthy. *)
Definition truthy (x : JsNumber) : bool :=
  match x with
  | NaN => false
  | Finite q => negb (Qnum q =? 0)
  | PosInfinity | NegInfinity => true
  end.

(** [x || 0]. *)
Definition or_zero (x : JsNumber) : JsNumber :=
  if truthy x then x else zero.

(** ** [Array.prototype.sort]

    The sort is stable. For a consistent comparator the result is the
    one stable arrangement, which insertion from the right computes:
    an element goes before the first element of the sorted tail that it
    does not follow. *)

Section Sort.
Variable A : Type.
Variable cmp : A -> A -> Z.

Fixpoint insert (x : A) (l : list A) : list A :=
  match l with
  | [] => [x]
  | y :: l' => if cmp x y <=? 0 then x :: y :: l' else y :: insert x l'
  end.

Definition sort (l : list A) : list A := fold_right insert [] l.
End Sort.

(** ** [Map]: [set] and [get], and [new Set] *)

Section Map.
Variables K V : Type.
Variable eqb : K -> K -> bool.

Fixpoint map_set (m : list (K * V)) (k : K) (v : V) : list (K * V) :=
  match m with
  | [] => [(k, v)]
  | (k', v') :: m' =>
      if eqb k k' then (k', v) :: m' else (k', v') :: map_set m' k v
  end.

Fixpoint map_get (m : list (K * V)) (k : K) : option V :=
  match m with
  | [] => None
  | (k', v') :: m' => if eqb k k' then Some v' else map_get m' k
  end.

(** [Array.from(new Set(l))]: the distinct values, each at its first
    occurrence. *)
Definition set_add (acc : list K) (k : K) : list K :=
  if existsb (eqb k) acc then acc else acc ++ [k].

Definition uniq (l : list K) : list K := fold_left set_add l [].
End Map.

End Js.

(* ================================================================== *)
(** * d3-array: [ascending], [group], [rollup] *)
(* ================================================================== *)

Module D3Array.

(** [ascending(a, b)] on two strings: -1, 0 or 1. *)
Definition ascending (a b : string) : Z :=
  match String.compare a b with
  | Lt => -1
  | Eq => 0
  | Gt => 1
  end.

(** [ascending(a, b)] on two numbers (or two dates). *)
Definition ascendingZ (a b : Z) : Z :=
  match Z.compare a b with
  | Lt => -1
  | Eq => 0
  | Gt => 1
  end.

(** [x || y] on two comparator results. *)
Definition orElse (x y : Z) : Z := if x =? 0 then y else x.

(** A bin of [group] is created by its first value and only grows: it is
    a first value and the values pushed after it. [bin[0]] is [first]. *)
Record Bin (A : Type) : Type := mkBin { first : A; pushed : list A }.

Definition values {A : Type} (b : Bin A) : list A := first b :: pushed b.

Definition push {A : Type} (b : Bin A) (x : A) : Bin A :=
  mkBin (first b) (pushed b ++ [x]).

Section Group.
Variables A K : Type.
Variable eqb : K -> K -> bool.
Variable key : A -> K.

(** One step of the loop of [nest]: push onto the key's bin, or open a
    new bin at the end. *)
Fixpoint group_add (g : list (K * Bin A)) (x : A) : list (K * Bin A) :=
  match g with
  | [] => [(key x, mkBin x [])]
  | (k', bin) :: g' =>
      if eqb (key x) k' then (k', push bin x) :: g'
      else (k', bin) :: group_add g' x
  end.

(** [group(values, key)]: the bins in the order their keys first occur,
    each bin in the order of the values. *)
Definition group (l : list A) : list (K * Bin A) :=
  fold_left group_add l [].
End Group.

(** Nested grouping and [rollup] map every bin of a level: [regroup] by
    the next key, or [reduce] at the leaves. *)
Definition onBins {K B C : Type} (f : B -> C) (g : list (K * B))
  : list (K * C) :=
  map (fun kb => (fst kb, f (snd kb))) g.

End D3Array.

(* ================================================================== *)
(** * d3-time and d3-time-format: [utcDays], [utcFormat("%Y-%m-%d")] *)
(* ================================================================== *)

Module D3Time.

Definition durationDay : Z := 86400000.

(** [utcDay.floor]: [setUTCHours(0, 0, 0, 0)]. *)
Definition floor (t : Z) : Z := t - t mod durationDay.

(** [utcDay.offset(t, step)]: [setUTCDate(getUTCDate() + step)]. *)
Definition offset (t step : Z) : Z := t + step * durationDay.

(** [interval.ceil]: floor of the millisecond before, one interval on,
    floored. *)
Definition ceil (t : Z) : Z := floor (offset (floor (t - 1)) 1).

(** The [do ... while] loop of [interval.range], with [fuel] bounding
    the number of turns: push [start], move it on, go on while it moved
    and is before [stop]. *)
Fixpoint range_loop (fuel : nat) (start stop step : Z) : list Z :=
  match fuel with
  | O => []
  | S fuel' =>
      let previous := start in
      let start' := floor (offset start step) in
      previous ::
        (if (previous <? start') && (start' <? stop)
         then range_loop fuel' start' stop step
         else [])
  end.

(** [interval.range(start, stop, step)]. The loop makes at most one turn
    per day between the two dates. *)
Definition range (start stop step : Z) : list Z :=
  let start := ceil start in
  if negb (start <? stop) || negb (0 <? step) then []
  else range_loop (Z.to_nat ((stop - start) / durationDay + 1)) start stop step.

Definition utcDays (start stop step : Z) : list Z := range start stop step.

(** The civil date of a day number (days since 1970-01-01), which is
    what [getUTCFullYear], [getUTCMonth] and [getUTCDate] read. *)
Definition civil (day : Z) : Z * Z * Z :=
  let z := day + 719468 in
  let era := z / 146097 in
  let doe := z - era * 146097 in
  let yoe := (doe - doe / 1460 + doe / 36524 - doe / 146096) / 365 in
  let doy := doe - (365 * yoe + yoe / 4 - yoe / 100) in
  let mp := (5 * doy + 2) / 153 in
  let d := doy - (153 * mp + 2) / 5 + 1 in
  let m := if mp <? 10 then mp + 3 else mp - 9 in
  let y := yoe + era * 400 + (if m <=? 2 then 1 else 0) in
  (y, m, d).

Fixpoint zeros (n : nat) : string :=
  match n with
  | O => EmptyString
  | S n' => String "0" (zeros n')
  end.

(** [pad(value, "0", width)] of d3-time-format. *)
Definition pad (value : Z) (width : nat) : string :=
  let sign := if value <? 0 then "-" else "" in
  let digits := Js.String_of (Z.abs value) in
  String.append sign
    (String.append (zeros (width - String.length digits)) digits).

(** [utcFormat("%Y-%m-%d")]: [%Y] pads the year modulo 10000 to four
    digits, [%m] and [%d] pad to two. *)
Definition yearMonthDayFormat (date : Z) : string :=
  let '(y, m, d) := civil (date / durationDay) in
  String.append (pad (Z.rem y 10000) 4)
    (String.append "-" (String.append (pad m 2) (String.append "-" (pad d 2)))).

End D3Time.

(* ================================================================== *)
(** * Promises: [then], [Promise.all] *)
(* ================================================================== *)

Module Promise.

Inductive Outcome (A : Type) : Type :=
| Fulfilled (value : A)
| Rejected (reason : string).
Arguments Rejected {A} reason.

(** A settled promise: the tick of the event loop at which it settled,
    and how. *)
Record t (A : Type) : Type := mk { settledAt : nat; outcome : Outcome A }.

(** [p.then(f)] where [f] returns a promise: a rejection of [p] passes
    through; otherwise the result settles as [f value] does, after [p]. *)
Definition bind {A B : Type} (p : t A) (f : A -> t B) : t B :=
  match outcome p with
  | Fulfilled v => mk (settledAt p + settledAt (f v)) (outcome (f v))
  | Rejected e => mk (settledAt p) (Rejected e)
  end.

(** [p.then(f)] where [f] returns a plain value. *)
Definition map {A B : Type} (p : t A) (f : A -> B) : t B :=
  match outcome p with
  | Fulfilled v => mk (settledAt p) (Fulfilled (f v))
  | Rejected e => mk (settledAt p) (Rejected e)
  end.

(** The rejection that settles first, the earlier in the array when two
    settle in the same tick. *)
Fixpoint firstRejection {A : Type} (ps : list (t A)) : option (nat * string) :=
  match ps with
  | [] => None
  | p :: ps' =>
      match outcome p, firstRejection ps' with
      | Rejected e, Some (n', e') =>
          if (settledAt p <=? n')%nat then Some (settledAt p, e) else Some (n', e')
      | Rejected e, None => Some (settledAt p, e)
      | Fulfilled _, r => r
      end
  end.

Definition fulfilledValues {A : Type} (ps : list (t A)) : list A :=
  flat_map (fun p => match outcome p with
                     | Fulfilled v => [v]
                     | Rejected _ => []
                     end) ps.

(** [Promise.all(ps)]: rejects with the first rejection; otherwise
    fulfils, once every promise has, with the values in array order. *)
Definition all {A : Type} (ps : list (t A)) : t (list A) :=
  match firstRejection ps with
  | Some (n, e) => mk n (Rejected e)
  | None => mk (fold_right Nat.max O (List.map (@settledAt A) ps))
               (Fulfilled (fulfilledValues ps))
  end.

End Promise.

(* ================================================================== *)
(** * Tables *)
(* ================================================================== *)

Module Table.

(** A cell is a string, a number, or an element. *)
#[local] Unset Elimination Schemes.
Inductive Cell : Type :=
| Text (s : string)
| Number (n : Z)
| Ratio (x : Js.JsNumber)
| Span (title : option string) (style : option string) (csv : list string)
       (children : list Cell)
| Link (href : string) (children : list Cell)
| Th (colSpan : Z) (children : list Cell)
| Td (csv : option Cell) (style : option string) (children : list Cell).
#[local] Set Elimination Schemes.

Record TableData : Type := mkTable {
  header : list Cell;
  body : list (list Cell);
  footer : option (list Cell)
}.

(** A child that may be [undefined] renders nothing. *)
Definition child (s : option string) : list Cell :=
  match s with
  | Some s => [Text s]
  | None => []
  end.

(** The columns a cell takes: its [colSpan] for a [th], one otherwise. *)
Definition columns (c : Cell) : Z :=
  match c with
  | Th colSpan _ => colSpan
  | _ => 1
  end.

Definition width (row : list Cell) : Z :=
  fold_right Z.add 0 (List.map columns row).

End Table.

(* ================================================================== *)
(** * report: the path of a day's report *)
(* ================================================================== *)

Module Report.

(** Modelled from the spec: [path] of the module [report], which is not
    part of the listing. The interface section gives the request as
    [<report-name>/<date:YYYY-MM-DD>.<json|csv>?env=<env>]; the
    extension defaults to [json]. *)
Definition path (reportName : string) (date : Z) (env : string)
           (extension : option string) : string :=
  String.append reportName
    (String.append "/"
       (String.append (D3Time.yearMonthDayFormat date)
          (String.append "."
             (String.append (match extension with Some e => e | None => "json" end)
                (String.append "?env=" env))))).

End Report.

(* ================================================================== *)
(** * daily-auths-report *)
(* ================================================================== *)

Module DailyAuthsReport.
Import Js D3Array D3Time Table.

(** [Result], as the JSON of a report has it. [agency] is the one field
    the code expects to be missing. *)
Module Result.
Record t : Type := mk {
  count : Z;
  ial : Z;
  issuer : string;
  iaa : option string;
  friendly_name : string;
  agency : option string
}.
End Result.

Record ProcessedResult : Type := mkProcessed {
  count : Z;
  ial : Z;
  issuer : string;
  iaa : option string;
  friendly_name : string;
  agency : string;
  date : Z
}.

Section Loader.
(** [new Date(s)] for the ISO8601 strings of a report. *)
Variable Date_new : string -> Z.

Record DailyAuthsReportData : Type := mkData {
  results : list Result.t;
  start : string;
  finish : string
}.

Definition process (report : DailyAuthsReportData) : list ProcessedResult :=
  let date := Date_new (start report) in
  List.map (fun r =>
         mkProcessed (Result.count r) (Result.ial r) (Result.issuer r)
           (Result.iaa r) (Result.friendly_name r)
           (or_str (Result.agency r) "(No Agency)") date)
      (results report).

Variable reportPath : string -> Z -> string -> option string -> string.
Variable Response : Type.
Variable json : Response -> Promise.t DailyAuthsReportData.

(** [loadData]: the paths [fetch] is called with, in call order, and
    the promise returned. *)
Definition loadData (start finish : Z) (env : string)
           (fetch : string -> Promise.t Response)
  : list string * Promise.t (list ProcessedResult) :=
  let calls :=
    List.map (fun date =>
           let path := reportPath "daily-auths-report" date env None in
           (path, Promise.bind (fetch path) json))
        (utcDays start finish 1) in
  (List.map fst calls,
   Promise.map (Promise.all (List.map snd calls))
     (fun reports => flat_map process reports)).
End Loader.

(** [d.agency === filterAgency], [d.ial === filterIal]. *)
Definition eqAgency (a : string) (f : option string) : bool :=
  match f with Some f => String.eqb a f | None => false end.

Definition eqIal (i : Z) (f : option Z) : bool :=
  match f with Some f => i =? f | None => false end.

(** The distinct dates of the rows, ascending. *)
Definition daysOf (rows : list ProcessedResult) : list Z :=
  sort (fun a b => a - b) (uniq Z.eqb (List.map date rows)).

Definition byKey {K B : Type} (asc : K -> K -> Z) (a b : K * B) : Z :=
  asc (fst a) (fst b).

Definition total (dayCounts : list Z) : Z :=
  fold_left (fun d total => d + total) dayCounts 0.

Definition tabulate (results : option (list ProcessedResult))
           (filterAgency : option string) (filterIal : option Z) : TableData :=
  let filteredResults :=
    filter (fun d =>
              (negb (truthy_str filterAgency) || eqAgency (agency d) filterAgency)
              && (negb (truthy_num filterIal) || eqIal (ial d) filterIal))
           (match results with Some r => r | None => [] end) in
  let days := daysOf filteredResults in
  let header :=
    [Text "Agency"; Text "App"; Text "IAL"]
      ++ List.map (fun d => Text (yearMonthDayFormat d)) days ++ [Text "Total"] in
  let grouped :=
    onBins (fun byAgency =>
              onBins (fun byIssuer => group Z.eqb ial (values byIssuer))
                     (group String.eqb issuer (values byAgency)))
           (group String.eqb agency filteredResults) in
  let issuerToFriendlyName :=
    fold_left (fun m d => map_set String.eqb m (issuer d) (friendly_name d))
              filteredResults [] in
  let body :=
    flat_map (fun '(agency, issuers) =>
      flat_map (fun '(issuer, ials) =>
        List.map (fun '(ial, data) =>
          let dayCounts :=
            List.map (fun date =>
                   match filter (fun d => DailyAuthsReport.date d =? date) (values data) with
                   | d :: _ => count d
                   | [] => 0
                   end) days in
          [Text agency;
           Span (Some issuer) None []
                (child (map_get String.eqb issuerToFriendlyName issuer));
           Text (String_of ial)]
            ++ List.map Number dayCounts ++ [Number (total dayCounts)])
          ials)
        (sort (byKey ascending) issuers))
      (sort (byKey ascending) grouped) in
  mkTable header body None.

Section SumByAgency.
(** The [href] of an agency's link: the page's location with the
    [agency] parameter set ([URLSearchParams.set], [pathWithParams]). *)
Variable Location : Type.
Variable agencyHref : Location -> string -> string.

Definition tabulateSumByAgency (results : option (list ProcessedResult))
           (filterIal : option Z) (location : Location) : TableData :=
  let filteredResults :=
    filter (fun d => negb (truthy_num filterIal) || eqIal (ial d) filterIal)
           (match results with Some r => r | None => [] end) in
  let days := daysOf filteredResults in
  let rolledup :=
    onBins (fun byAgency =>
              onBins (fun byIal =>
                        onBins (fun bin =>
                                  fold_left (fun sum d => sum + count d) (values bin) 0)
                               (group String.eqb (fun d => yearMonthDayFormat (date d))
                                      (values byIal)))
                     (group Z.eqb ial (values byAgency)))
           (group String.eqb agency filteredResults) in
  let header :=
    [Text "Agency"; Text "IAL"]
      ++ List.map (fun d => Text (yearMonthDayFormat d)) days ++ [Text "Total"] in
  let body :=
    flat_map (fun '(agency, ials) =>
      List.map (fun '(ial, ialDays) =>
        let dayCounts :=
          List.map (fun date =>
                 match map_get String.eqb ialDays (yearMonthDayFormat date) with
                 | Some n => or0 n
                 | None => 0
                 end) days in
        let url := agencyHref location agency in
        [Link url [Text agency]; Text (String_of ial)]
          ++ List.map Number dayCounts ++ [Number (total dayCounts)])
        ials)
      (sort (byKey ascending) rolledup) in
  mkTable header body None.
End SumByAgency.

(** [simplifyVNodes] of the test suite: the span of the app is read by
    its [title]. *)
Definition simplifyVNodes (body : list (list Cell)) : list (list Cell) :=
  List.map (fun row =>
         match row with
         | agency :: Span (Some title) _ _ _ :: rest => agency :: Text title :: rest
         | _ => row
         end) body.

End DailyAuthsReport.

(* ================================================================== *)
(** * daily-dropoffs-report: the funnel *)
(* ================================================================== *)

Module DailyDropoffsReport.
Import Js D3Array D3Time Table.

Inductive FunnelMode : Type :=
| OVERALL   (* starts the funnel at the welcome screen *)
| BLANKET.  (* starts the funnel at the image submission screen *)

Definition DEFAULT_FUNNEL_MODE : FunnelMode := OVERALL.

Inductive Step : Type :=
| WELCOME | AGREEMENT | CAPTURE_DOCUMENT | CAP_DOC_SUBMIT | SSN | VERIFY_INFO
| VERIFY_SUBMIT | PHONE | ENCRYPT | PERSONAL_KEY | VERIFIED.

Definition Step_eqb (a b : Step) : bool :=
  match a, b with
  | WELCOME, WELCOME | AGREEMENT, AGREEMENT
  | CAPTURE_DOCUMENT, CAPTURE_DOCUMENT | CAP_DOC_SUBMIT, CAP_DOC_SUBMIT
  | SSN, SSN | VERIFY_INFO, VERIFY_INFO | VERIFY_SUBMIT, VERIFY_SUBMIT
  | PHONE, PHONE | ENCRYPT, ENCRYPT | PERSONAL_KEY, PERSONAL_KEY
  | VERIFIED, VERIFIED => true
  | _, _ => false
  end.

Record StepInfo : Type := mkStep { key : Step; title : string }.

Definition STEPS : list StepInfo :=
  [ mkStep WELCOME "Welcome";
    mkStep AGREEMENT "Agreement";
    mkStep CAPTURE_DOCUMENT "Capture Document";
    mkStep CAP_DOC_SUBMIT "Submit Document";
    mkStep SSN "SSN";
    mkStep VERIFY_INFO "Verify Info";
    mkStep VERIFY_SUBMIT "Verify Submit";
    mkStep PHONE "Phone";
    mkStep ENCRYPT "Encrypt";
    mkStep PERSONAL_KEY "Personal Key";
    mkStep VERIFIED "Verified" ].

Definition stepToTitle (step : Step) : string :=
  match find (fun s => Step_eqb (key s) step) STEPS with
  | Some s => or_str (Some (title s)) ""
  | None => ""
  end.

(** The step columns of a row, [Record<Step, number>]. A column may be
    missing from the CSV, which the code reads as [row[key] || 0]. *)
Record Counts : Type := mkCounts {
  welcome : option Z;
  agreement : option Z;
  capture_document : option Z;
  cap_doc_submit : option Z;
  ssn : option Z;
  verify_info : option Z;
  verify_submit : option Z;
  phone : option Z;
  encrypt : option Z;
  personal_key : option Z;
  verified : option Z
}.

(** A row, over the type [S] of its issuer, friendly name and agency:
    [option string] as [csvParse] with [autoType] reads them,
    [string] once [process] has put the defaults in. *)
Record Row (S : Type) : Type := mkRow {
  issuer : S;
  friendly_name : S;
  iaa : string;
  agency : S;
  start : Z;
  finish : Z;
  steps : Counts
}.

Definition ParsedRow : Type := Row (option string).
Definition DailyDropoffsRow : Type := Row string.

(** [row[key]]. *)
Definition get {S : Type} (row : Row S) (k : Step) : option Z :=
  match k with
  | WELCOME => welcome (steps row)
  | AGREEMENT => agreement (steps row)
  | CAPTURE_DOCUMENT => capture_document (steps row)
  | CAP_DOC_SUBMIT => cap_doc_submit (steps row)
  | SSN => ssn (steps row)
  | VERIFY_INFO => verify_info (steps row)
  | VERIFY_SUBMIT => verify_submit (steps row)
  | PHONE => phone (steps row)
  | ENCRYPT => encrypt (steps row)
  | PERSONAL_KEY => personal_key (steps row)
  | VERIFIED => verified (steps row)
  end.

(** [n || 0] on a count that may be missing. *)
Definition count_or0 (n : option Z) : Z :=
  match n with
  | Some n => or0 n
  | None => 0
  end.

Section Process.
(** [csvParse(str, autoType)] of d3-dsv. *)
Variable csvParse : string -> list ParsedRow.

Definition process (str : string) : list DailyDropoffsRow :=
  List.map (fun r : ParsedRow =>
         mkRow (or_str (issuer r) "(No Issuer)")
               (or_str (friendly_name r) "(No App)")
               (iaa r)
               (or_str (agency r) "(No Agency)")
               (start r) (finish r) (steps r))
      (csvParse str).
End Process.

Definition funnelSteps (funnelMode : FunnelMode) : list StepInfo :=
  match funnelMode with
  | OVERALL => STEPS
  | BLANKET => skipn 3 STEPS
  end.

Record StepCount : Type := mkStepCount {
  step : Step;
  count : Z;
  percentOfFirst : JsNumber;    (* compare to step[0] *)
  percentOfPrevious : JsNumber  (* compare to step[n - 1] *)
}.

(** [l.map((x, idx) => f(x, idx))], counting from [idx]. *)
Fixpoint mapi_from {A B : Type} (f : A -> nat -> B) (idx : nat) (l : list A)
  : list B :=
  match l with
  | [] => []
  | x :: l' => f x idx :: mapi_from f (S idx) l'
  end.

Definition mapi {A B : Type} (f : A -> nat -> B) (l : list A) : list B :=
  mapi_from f 0 l.

(** [steps[i]]; every index the code uses is in range. *)
Definition stepAt (steps : list StepInfo) (i : nat) : StepInfo :=
  nth i steps (mkStep WELCOME "Welcome").

Definition toStepCounts {S : Type} (row : Row S) (funnelMode : FunnelMode)
  : list StepCount :=
  let steps := funnelSteps funnelMode in
  let firstCount := count_or0 (get row (key (stepAt steps 0))) in
  mapi (fun s idx =>
          let count := count_or0 (get row (key s)) in
          let prevCount :=
            if (0 <? idx)%nat
            then count_or0 (get row (key (stepAt steps (idx - 1))))
            else firstCount in
          mkStepCount (key s) count
            (or_zero (div count firstCount)) (* guard against NaN from divide by zero *)
            (or_zero (div count prevCount)))
       steps.

(** [Object.fromEntries(steps)], spread into the row. *)
Definition fromEntries (m : list (Step * Z)) : Counts :=
  let at_ k := map_get Step_eqb m k in
  mkCounts (at_ WELCOME) (at_ AGREEMENT) (at_ CAPTURE_DOCUMENT)
           (at_ CAP_DOC_SUBMIT) (at_ SSN) (at_ VERIFY_INFO) (at_ VERIFY_SUBMIT)
           (at_ PHONE) (at_ ENCRYPT) (at_ PERSONAL_KEY) (at_ VERIFIED).

(** The two nested [forEach] of [aggregate]: the sums of a bin, step by
    step. *)
Definition sumSteps (bin : list DailyDropoffsRow) : list (Step * Z) :=
  fold_left (fun steps row =>
     fold_left (fun steps s =>
        let oldCount := count_or0 (map_get Step_eqb steps (key s)) in
        map_set Step_eqb steps (key s) (count_or0 (get row (key s)) + oldCount))
       STEPS steps)
    bin [].

(** Sums up counts by day. *)
Definition aggregate (rows : list DailyDropoffsRow) : list DailyDropoffsRow :=
  List.map (fun '(_, bin) =>
         let steps := sumSteps (values bin) in
         let r0 := first bin in
         mkRow (issuer r0) (friendly_name r0) (iaa r0) (agency r0)
               (start r0) (finish r0) (fromEntries steps))
      (sort (fun a b =>
               orElse (ascending (fst a) (fst b))
                      (ascending (friendly_name (first (snd a)))
                                 (friendly_name (first (snd b)))))
            (group String.eqb (@issuer string) rows)).

(** [l.flatMap((x, idx) => f(x, idx))]. *)
Definition flatMapi {A B : Type} (f : A -> nat -> list B) (l : list A) : list B :=
  List.concat (mapi f l).

Section Tabulate.
(** The formats and colour scales, from d3-format and d3-scale. *)
Variable formatWithCommas : Z -> string.
Variable formatAsPercent : JsNumber -> string.
Variable color : JsNumber -> string.
Variable issuerColor : string -> string.

Definition headerSteps (funnelMode : FunnelMode) : list Cell :=
  mapi (fun s idx => Th (if (idx =? 0)%nat then 1 else 2) [Text (title s)])
       (funnelSteps funnelMode).

Definition tabulate (rows : option (list DailyDropoffsRow)) (funnelMode : FunnelMode)
           (filterAgency : option string) : TableData :=
  let filteredRows :=
    filter (fun d => negb (truthy_str filterAgency)
                     || match filterAgency with
                        | Some f => String.eqb (agency d) f
                        | None => false
                        end)
           (match rows with Some r => r | None => [] end) in
  let header := [Text "Agency"; Text "App"] ++ headerSteps funnelMode in
  let body :=
    List.map (fun row =>
      [Text (agency row);
       Span (Some (issuer row)) None []
            [Span None (Some (String.append "color: " (issuerColor (issuer row)))) []
                  [Text "⬤ "];
             Text (friendly_name row)]]
        ++ flatMapi (fun sc idx =>
             let backgroundColor :=
               String.append "background-color: "
                 (String.append (color (percentOfFirst sc)) ";") in
             let cells :=
               [Td None (Some backgroundColor) [Text (formatWithCommas (count sc))]] in
             if (0 <? idx)%nat
             then cells ++ [Td None (Some backgroundColor)
                               [Text (formatAsPercent (percentOfFirst sc))]]
             else cells)
           (toStepCounts row funnelMode))
      filteredRows in
  mkTable header body None.
End Tabulate.

Section Loader.
Variable csvParse : string -> list ParsedRow.
Variable reportPath : string -> Z -> string -> option string -> string.
Variable Response : Type.
Variable text : Response -> Promise.t string.

(** [loadData]: the paths [fetch] is called with, in call order, and the
    promise returned. *)
Definition loadData (start finish : Z) (env : string)
           (fetch : string -> Promise.t Response)
  : list string * Promise.t (list DailyDropoffsRow) :=
  let calls :=
    List.map (fun date =>
           let path := reportPath "daily-dropoffs-report" date env (Some "csv") in
           (path, Promise.bind (fetch path) text))
        (utcDays start finish 1) in
  (List.map fst calls,
   Promise.map (Promise.all (List.map snd calls))
     (fun reports => aggregate (flat_map (process csvParse) reports))).
End Loader.

End DailyDropoffsReport.

(* ================================================================== *)
(** * components/daily-dropoffs-report: the funnel table with totals *)
(* ================================================================== *)

Module DailyDropoffsTable.
Import Js D3Array D3Time Table DailyDropoffsReport.

(** [totals[idx] += count]. [totals] has one entry per step, so [idx] is
    always in range; out of range nothing is added. *)
Fixpoint addAt (idx : nat) (n : Z) (totals : list Z) : list Z :=
  match totals, idx with
  | [], _ => []
  | t :: ts, O => (t + n) :: ts
  | t :: ts, S idx' => t :: addAt idx' n ts
  end.

Section Tabulate.
Variable formatWithCommas : Z -> string.
Variable formatAsPercent : JsNumber -> string.
Variable color : JsNumber -> string.
Variable issuerColor : string -> string.

Definition byAgencyThenName (a b : DailyDropoffsRow) : Z :=
  orElse (ascending (agency a) (agency b))
         (ascending (friendly_name a) (friendly_name b)).

(** The cells of one step of a row, [idx] being its place in the funnel. *)
Definition stepCells (sc : StepCount) (idx : nat) : list Cell :=
  let backgroundColor :=
    String.append "background-color: "
      (String.append (color (percentOfFirst sc)) ";") in
  let cells :=
    [Td (Some (Number (count sc))) (Some backgroundColor)
        [Text (formatWithCommas (count sc))]] in
  if (0 <? idx)%nat
  then cells ++ [Td (Some (Ratio (percentOfFirst sc))) (Some backgroundColor)
                    [Text (formatAsPercent (percentOfFirst sc))]]
  else cells.

(** What the body's callback leaves in [totals] after one row. *)
Definition addRow (funnelMode : FunnelMode) (totals : list Z)
           (row : DailyDropoffsRow) : list Z :=
  fold_left (fun totals p => addAt (snd p) (count (fst p)) totals)
            (mapi (fun sc idx => (sc, idx)) (toStepCounts row funnelMode))
            totals.

Definition tabulate (unsortedRows : list DailyDropoffsRow)
           (funnelMode : FunnelMode) : TableData :=
  let rows := sort byAgencyThenName unsortedRows in
  let header :=
    [Text "Agency"; Span None None ["Issuer"; "Friendly Name"] [Text "App"]]
      ++ headerSteps funnelMode in
  let totals := List.map (fun _ => 0) (funnelSteps funnelMode) in
  let body :=
    List.map (fun row =>
      [Text (agency row);
       Span (Some (issuer row)) None [issuer row; friendly_name row]
            [Span None (Some (String.append "color: " (issuerColor (issuer row)))) []
                  [Text "⬤ "];
             Text (friendly_name row)]]
        ++ flatMapi stepCells (toStepCounts row funnelMode))
      rows in
  let totals := fold_left (addRow funnelMode) rows totals in
  mkTable header body
    (Some ([Text "Total"; Text ""]
             ++ List.map (fun d => Td None None [Text d])
                  (flatMapi (fun total idx =>
                               if (0 <? idx)%nat
                               then [formatWithCommas total; ""]
                               else [formatWithCommas total])
                            totals))).
End Tabulate.

(** The agency filter of the report, and the rows the report shows by
    agency ([byAgency] set; [aggregateAll], of the other branch, is not in
    the listing): [aggregate], then the filter. *)
Definition filterAgency (agency : option string) (rows : list DailyDropoffsRow)
  : list DailyDropoffsRow :=
  filter (fun d => negb (truthy_str agency)
                   || match agency with
                      | Some a => String.eqb (DailyDropoffsReport.agency d) a
                      | None => false
                      end) rows.

Definition filteredData (data : option (list DailyDropoffsRow))
           (agency : option string) : list DailyDropoffsRow :=
  let nonNullData := aggregate (match data with Some d => d | None => [] end) in
  filterAgency agency nonNullData.

End DailyDropoffsTable.

(* ================================================================== *)
(** * components/account-deletions-report, daily-registrations-report *)
(* ================================================================== *)

Module Registrations.
Import Js D3Array D3Time Table.

(** [ProcessedResult] of the registrations data. Its declaration is not in
    the listing; these are the fields the two components read. *)
Record ProcessedResult : Type := mkResult {
  date : Z;
  totalUsers : Z;
  fullyRegisteredUsers : Z;
  deletedUsers : Z;
  totalUsersCumulative : Z;
  fullyRegisteredUsersCumulative : Z
}.

Record ProcessedFormattedData : Type := mkFormatted {
  week : Z;
  value : JsNumber
}.

Section FormatData.
(** The local clock of the browser, as a fixed number of milliseconds ahead
    of UTC. *)
Variable localOffset : Z.

(** [date.getDay()]: the day of the week of the local date, Sunday being
    0; 1970-01-01 was a Thursday. *)
Definition getDay (date : Z) : Z := ((date + localOffset) / durationDay + 4) mod 7.

(** [setDate(getDate() - day)] on a copy: [day] local days back, at the
    same time of day. *)
Definition getStartOfWeek (date : Z) : Z :=
  let day := getDay date in
  date - day * durationDay.

Definition formatData (data : list ProcessedResult) : list ProcessedFormattedData :=
  List.map (fun '(week, entries) =>
         let '(deletedUsers, fullyRegisteredUsers) :=
           fold_left (fun result entry =>
                        (fst result + Registrations.deletedUsers entry,
                         snd result + Registrations.fullyRegisteredUsers entry))
                     (values entries) (0, 0) in
         let value := div deletedUsers fullyRegisteredUsers in
         mkFormatted week value)
      (group Z.eqb (fun value => getStartOfWeek (date value)) data).
End FormatData.

(** [tabulate] of the account-deletions report. *)
Definition tabulateDeletions (results : list ProcessedFormattedData) : TableData :=
  mkTable [Text "Date"; Text "Percent"]
    (List.map (fun r => [Text (yearMonthDayFormat (week r)); Ratio (value r)])
         (sort (fun a b => ascendingZ (week a) (week b)) results))
    None.

(** [tabulate] of the daily-registrations report: assumes that results is
    pre-sorted, pre-filtered. *)
Definition tabulateRegistrations (results : list ProcessedResult) : TableData :=
  mkTable
    (Text "" :: List.map (fun r => Text (yearMonthDayFormat (date r))) results)
    [ Text "New Users" :: List.map (fun r => Number (totalUsers r)) results;
      Text "New Fully Registered Users"
        :: List.map (fun r => Number (fullyRegisteredUsers r)) results;
      Text "Cumulative Users"
        :: List.map (fun r => Number (totalUsersCumulative r)) results;
      Text "Cumulative Fully Registered Users"
        :: List.map (fun r => Number (fullyRegisteredUsersCumulative r)) results ]
    None.

End Registrations.

(* ================================================================== *)
(** * Evaluations *)
(* ================================================================== *)

Example yearMonthDayFormat_2021_01_01 :
  D3Time.yearMonthDayFormat 1609459200000 = "2021-01-01".
Proof. reflexivity. Qed.

Example yearMonthDayFormat_2021_01_02 :
  D3Time.yearMonthDayFormat (1609459200000 + 86400000 + 5) = "2021-01-02".
Proof. reflexivity. Qed.

Example yearMonthDayFormat_leap :
  D3Time.yearMonthDayFormat (1582934400000) = "2020-02-29".
Proof. reflexivity. Qed.

Example utcDays_week :
  D3Time.utcDays 1609459200000 (1609459200000 + 3 * 86400000) 1
  = [1609459200000; 1609545600000; 1609632000000].
Proof. reflexivity. Qed.

(* ================================================================== *)
(** * Strings in code-unit order *)
(* ================================================================== *)

Module StringOrder.

Lemma ascii_compare_refl (a : ascii) : Ascii.compare a a = Eq.
Proof. unfold Ascii.compare. apply N.compare_refl. Qed.

Lemma ascii_compare_trans (a b c : ascii) :
  Ascii.compare a b = Lt -> Ascii.compare b c = Lt -> Ascii.compare a c = Lt.
Proof.
  unfold Ascii.compare. rewrite !N.compare_lt_iff. apply N.lt_trans.
Qed.

Lemma compare_refl (s : string) : String.compare s s = Eq.
Proof.
  induction s as [|a s IH]; simpl; [reflexivity|].
  now rewrite ascii_compare_refl.
Qed.

Lemma compare_eq (s1 s2 : string) : String.compare s1 s2 = Eq <-> s1 = s2.
Proof.
  split; [apply String.compare_eq_iff|intros ->; apply compare_refl].
Qed.

Lemma compare_lt_trans (a b c : string) :
  String.compare a b = Lt -> String.compare b c = Lt -> String.compare a c = Lt.
Proof.
  revert b c.
  induction a as [|x a IH]; intros [|y b] [|z c]; simpl; try discriminate; auto.
  destruct (Ascii.compare x y) eqn:Hxy; try discriminate;
    destruct (Ascii.compare y z) eqn:Hyz; try discriminate; intros H1 H2.
  - apply Ascii.compare_eq_iff in Hxy, Hyz. subst.
    rewrite ascii_compare_refl. eauto.
  - apply Ascii.compare_eq_iff in Hxy. subst. now rewrite Hyz.
  - apply Ascii.compare_eq_iff in Hyz. subst. now rewrite Hxy.
  - now rewrite (ascii_compare_trans _ _ _ Hxy Hyz).
Qed.

Lemma compare_gt_lt (a b : string) :
  String.compare a b = Gt <-> String.compare b a = Lt.
Proof.
  rewrite (String.compare_antisym b a).
  destruct (String.compare a b); simpl; split; congruence.
Qed.

Lemma eqb_compare (a b : string) :
  String.eqb a b = true <-> String.compare a b = Eq.
Proof. rewrite String.eqb_eq. symmetry. apply compare_eq. Qed.

(** [a <= b]: [a] does not follow [b]. *)
Definition le (a b : string) : Prop := String.compare a b <> Gt.
Definition lt (a b : string) : Prop := String.compare a b = Lt.

Lemma le_lt_or_eq (a b : string) : le a b <-> lt a b \/ a = b.
Proof.
  unfold le, lt. rewrite <- compare_eq.
  destruct (String.compare a b); intuition congruence.
Qed.

Lemma lt_trans (a b c : string) : lt a b -> lt b c -> lt a c.
Proof. apply compare_lt_trans. Qed.

Lemma le_trans (a b c : string) : le a b -> le b c -> le a c.
Proof.
  rewrite !le_lt_or_eq. intros [H1| ->] [H2| ->]; auto.
  left. eapply lt_trans; eauto.
Qed.

Lemma lt_irrefl (a : string) : ~ lt a a.
Proof. unfold lt. rewrite compare_refl. discriminate. Qed.

Lemma lt_le_trans (a b c : string) : lt a b -> le b c -> lt a c.
Proof.
  rewrite le_lt_or_eq. intros H1 [H2| ->]; auto. eapply lt_trans; eauto.
Qed.

Lemma le_lt_trans (a b c : string) : le a b -> lt b c -> lt a c.
Proof.
  rewrite le_lt_or_eq. intros [H1| ->] H2; auto. eapply lt_trans; eauto.
Qed.

End StringOrder.

(* ================================================================== *)
(** * Facts on the built-ins *)
(* ================================================================== *)

Module JsFacts.
Import Js.

Lemma or0_id (n : Z) : or0 n = n.
Proof. unfold or0. destruct (Z.eqb_spec n 0); congruence. Qed.

Lemma or_str_present (s dflt : string) :
  s <> "" -> or_str (Some s) dflt = s.
Proof.
  intros H. unfold or_str, truthy_str.
  destruct (String.eqb_spec s ""); [contradiction|reflexivity].
Qed.

Lemma or_str_missing (s : option string) (dflt : string) :
  truthy_str s = false -> or_str s dflt = dflt.
Proof. destruct s as [s|]; simpl; [intros ->|]; reflexivity. Qed.

Lemma or_str_truthy (s : option string) (dflt : string) :
  truthy_str s = true -> Some (or_str s dflt) = s.
Proof. destruct s as [s|]; simpl; [intros ->; reflexivity|discriminate]. Qed.

(** ** The sort *)

Section SortFacts.
Variable A : Type.
Variable cmp : A -> A -> Z.

Definition cle (x y : A) : Prop := cmp x y <= 0.

Lemma insert_perm (x : A) (l : list A) : Permutation (insert cmp x l) (x :: l).
Proof.
  induction l as [|y l IH]; simpl; [reflexivity|].
  destruct (cmp x y <=? 0); [reflexivity|].
  rewrite IH. apply perm_swap.
Qed.

Lemma sort_perm (l : list A) : Permutation (sort cmp l) l.
Proof.
  induction l as [|x l IH]; simpl; [reflexivity|].
  rewrite insert_perm. now constructor.
Qed.

Lemma In_sort (x : A) (l : list A) : In x (sort cmp l) <-> In x l.
Proof.
  split; apply Permutation_in; [|symmetry]; apply sort_perm.
Qed.

Lemma sort_length (l : list A) : List.length (sort cmp l) = List.length l.
Proof. apply Permutation_length, sort_perm. Qed.

(** A list that is already in order is left as it is. *)
Lemma insert_sorted_head (x : A) (l : list A) :
  HdRel cle x l -> insert cmp x l = x :: l.
Proof.
  destruct l as [|y l]; simpl; [reflexivity|].
  intros H. inversion H as [|? ? Hxy]; subst. unfold cle in Hxy.
  destruct (Z.leb_spec (cmp x y) 0); [reflexivity|lia].
Qed.

Lemma sort_sorted_id (l : list A) : Sorted cle l -> sort cmp l = l.
Proof.
  induction 1 as [|x l Hs IH Hd]; simpl; [reflexivity|].
  rewrite IH. now apply insert_sorted_head.
Qed.

Hypothesis cmp_total : forall x y, 0 < cmp x y -> cmp y x <= 0.
Hypothesis cmp_trans : forall x y z, cmp x y <= 0 -> cmp y z <= 0 -> cmp x z <= 0.

Lemma insert_StronglySorted (x : A) (l : list A) :
  StronglySorted cle l -> StronglySorted cle (insert cmp x l).
Proof.
  induction 1 as [|y l Hs IH Hy]; simpl.
  - repeat constructor.
  - destruct (Z.leb_spec (cmp x y) 0) as [Hxy|Hxy].
    + constructor; [now constructor|].
      constructor; [exact Hxy|].
      rewrite Forall_forall in *. intros z Hz.
      eapply cmp_trans; [exact Hxy|]. now apply Hy.
    + constructor; [exact IH|].
      rewrite Forall_forall in *. intros z Hz.
      apply (Permutation_in _ (insert_perm x l)) in Hz.
      destruct Hz as [<-|Hz]; [now apply cmp_total|now apply Hy].
Qed.

Lemma sort_StronglySorted (l : list A) : StronglySorted cle (sort cmp l).
Proof.
  induction l as [|x l IH]; simpl; [constructor|].
  now apply insert_StronglySorted.
Qed.

(** Filtering commutes with the sort. *)
Lemma filter_insert (p : A -> bool) (x : A) (l : list A) :
  StronglySorted cle l ->
  filter p (insert cmp x l)
  = if p x then insert cmp x (filter p l) else filter p l.
Proof.
  induction 1 as [|y l Hs IH Hy]; simpl.
  - destruct (p x); reflexivity.
  - destruct (Z.leb_spec (cmp x y) 0) as [Hxy|Hxy]; simpl.
    + destruct (p x) eqn:Hpx; [|reflexivity].
      destruct (p y) eqn:Hpy; simpl.
      * destruct (Z.leb_spec (cmp x y) 0); [reflexivity|lia].
      * symmetry. apply insert_sorted_head.
        assert (Hall : Forall (cle x) (filter p l)).
        { rewrite Forall_forall in *. intros z Hz.
          apply filter_In in Hz. destruct Hz as [Hz _].
          eapply cmp_trans; [exact Hxy|]. now apply Hy. }
        destruct (filter p l); constructor.
        now inversion Hall.
    + rewrite IH. destruct (p x) eqn:Hpx; destruct (p y) eqn:Hpy; simpl;
        try reflexivity.
      destruct (Z.leb_spec (cmp x y) 0); [lia|reflexivity].
Qed.

Lemma filter_sort (p : A -> bool) (l : list A) :
  filter p (sort cmp l) = sort cmp (filter p l).
Proof.
  induction l as [|x l IH]; simpl; [reflexivity|].
  rewrite filter_insert by apply sort_StronglySorted.
  rewrite IH. destruct (p x); reflexivity.
Qed.

End SortFacts.

End JsFacts.

(* ================================================================== *)
(** * Facts on [new Set], [Map] and [group] *)
(* ================================================================== *)

Module GroupFacts.
Import Js D3Array.

(** The sum of [f] over a list. *)
Definition sumOf {A : Type} (f : A -> Z) (l : list A) : Z :=
  fold_right (fun x acc => f x + acc) 0 l.

Lemma sumOf_app {A : Type} (f : A -> Z) (l1 l2 : list A) :
  sumOf f (l1 ++ l2) = sumOf f l1 + sumOf f l2.
Proof. induction l1 as [|x l1 IH]; simpl; [reflexivity|]. rewrite IH. lia. Qed.

Lemma fold_left_sum {A : Type} (f : A -> Z) (l : list A) (acc : Z) :
  fold_left (fun sum d => sum + f d) l acc = acc + sumOf f l.
Proof.
  revert acc. induction l as [|x l IH]; intros acc; simpl; [lia|].
  rewrite IH. lia.
Qed.

Section Keys.
Variable K : Type.
Variable eqb : K -> K -> bool.
Hypothesis eqb_eq : forall a b, eqb a b = true <-> a = b.

Lemma eqb_refl (a : K) : eqb a a = true.
Proof. now apply eqb_eq. Qed.

Lemma eqb_neq (a b : K) : eqb a b = false <-> a <> b.
Proof.
  rewrite <- eqb_eq. destruct (eqb a b); split; congruence.
Qed.

Lemma existsb_eqb (k : K) (l : list K) : existsb (eqb k) l = true <-> In k l.
Proof.
  rewrite existsb_exists. split.
  - intros (x & Hx & Heq). apply eqb_eq in Heq. now subst.
  - intros H. exists k. split; [exact H|apply eqb_refl].
Qed.

(** ** [new Set]: distinct values in order of first occurrence *)

Lemma uniq_snoc (l : list K) (k : K) :
  uniq eqb (l ++ [k]) = set_add eqb (uniq eqb l) k.
Proof. unfold uniq. now rewrite fold_left_app. Qed.

Lemma In_uniq (k : K) (l : list K) : In k (uniq eqb l) <-> In k l.
Proof.
  induction l as [|x l IH] using rev_ind; [reflexivity|].
  rewrite uniq_snoc, in_app_iff. unfold set_add.
  destruct (existsb (eqb x) (uniq eqb l)) eqn:Hex.
  - apply existsb_eqb in Hex. simpl. rewrite IH in *.
    intuition (subst; auto).
  - rewrite in_app_iff, IH. reflexivity.
Qed.

Lemma NoDup_uniq (l : list K) : NoDup (uniq eqb l).
Proof.
  induction l as [|x l IH] using rev_ind; [constructor|].
  rewrite uniq_snoc. unfold set_add.
  destruct (existsb (eqb x) (uniq eqb l)) eqn:Hex; [exact IH|].
  apply NoDup_app; [exact IH|repeat constructor; intros []|].
  intros k Hk [<-|[]].
  apply existsb_eqb in Hk. congruence.
Qed.

(** ** [Map.set] and [Map.get] *)

Section MapFacts.
Variable V : Type.

Lemma map_get_set_same (m : list (K * V)) (k : K) (v : V) :
  map_get eqb (map_set eqb m k v) k = Some v.
Proof.
  induction m as [|[k' v'] m IH]; simpl.
  - now rewrite eqb_refl.
  - destruct (eqb k k') eqn:Hk; simpl; rewrite Hk; [reflexivity|exact IH].
Qed.

Lemma map_get_set_other (m : list (K * V)) (k k' : K) (v : V) :
  k' <> k -> map_get eqb (map_set eqb m k v) k' = map_get eqb m k'.
Proof.
  intros Hne. induction m as [|[k0 v0] m IH]; simpl.
  - apply eqb_neq in Hne. now rewrite Hne.
  - destruct (eqb k k0) eqn:Hk; simpl.
    + apply eqb_eq in Hk. subst k0. apply eqb_neq in Hne. now rewrite Hne.
    + destruct (eqb k' k0); [reflexivity|exact IH].
Qed.

(** The value a [Map] filled by a loop of [set] holds for a key: the one
    of the last row with that key. *)
Lemma map_get_fold_set {A : Type} (kf : A -> K) (vf : A -> V)
      (l : list A) (m : list (K * V)) (k : K) :
  map_get eqb (fold_left (fun m d => map_set eqb m (kf d) (vf d)) l m) k
  = match find (fun d => eqb (kf d) k) (rev l) with
    | Some d => Some (vf d)
    | None => map_get eqb m k
    end.
Proof.
  revert m. induction l as [|x l IH] using rev_ind; intros m; [reflexivity|].
  rewrite fold_left_app, rev_app_distr. simpl.
  destruct (eqb (kf x) k) eqn:Hk.
  - apply eqb_eq in Hk. subst k. apply map_get_set_same.
  - rewrite map_get_set_other; [apply IH|].
    apply eqb_neq in Hk. congruence.
Qed.
End MapFacts.

(** ** [group] *)

Section GroupOf.
Variable A : Type.
Variable key : A -> K.

(** Every bin is filed under the key of its values. *)
Definition wellKeyed (g : list (K * Bin A)) : Prop :=
  forall k b, In (k, b) g -> forall x, In x (values b) -> key x = k.

Lemma group_snoc (l : list A) (x : A) :
  group eqb key (l ++ [x]) = group_add eqb key (group eqb key l) x.
Proof. unfold group. now rewrite fold_left_app. Qed.

(** The lists of the bins, key by key. *)
Definition view (g : list (K * Bin A)) : list (K * list A) :=
  List.map (fun kb => (fst kb, values (snd kb))) g.

Lemma values_inj (b1 b2 : Bin A) : values b1 = values b2 -> b1 = b2.
Proof.
  destruct b1, b2. unfold values. simpl. intros H. now inversion H.
Qed.

Lemma view_inj (g1 g2 : list (K * Bin A)) : view g1 = view g2 -> g1 = g2.
Proof.
  revert g2. induction g1 as [|[k1 b1] g1 IH]; intros [|[k2 b2] g2];
    cbn [view List.map fst snd]; try discriminate; [reflexivity|].
  intros H. inversion H as [[Hk Hv Hg]].
  destruct b1, b2. simpl in *. subst. f_equal. now apply IH.
Qed.

Lemma view_keys (g : list (K * Bin A)) : List.map fst (view g) = List.map fst g.
Proof. unfold view. rewrite map_map. reflexivity. Qed.

(** Adding a value: onto the bin of its key, or as a new last bin. *)
Lemma view_group_add (g : list (K * Bin A)) (x : A) :
  NoDup (List.map fst g) ->
  view (group_add eqb key g x)
  = if existsb (eqb (key x)) (List.map fst g)
    then List.map (fun kv => (fst kv, snd kv ++ if eqb (key x) (fst kv) then [x] else []))
             (view g)
    else view g ++ [(key x, [x])].
Proof.
  induction g as [|[k b] g IH]; cbn [List.map fst snd]; intros Hnd;
    [reflexivity|].
  inversion Hnd as [|? ? Hk Hnd']; subst.
  cbn [group_add existsb].
  destruct (eqb (key x) k) eqn:Hx; cbn [orb view List.map fst snd].
  - apply eqb_eq in Hx. subst k. f_equal.
    { rewrite eqb_refl. reflexivity. }
    rewrite map_map.
    apply map_ext_in. intros [k b'] Hin. cbn [fst snd].
    assert (Hne : eqb (key x) k = false).
    { apply eqb_neq. intros <-. apply Hk.
      change (key x) with (fst (key x, b')). now apply in_map. }
    now rewrite Hne, app_nil_r.
  - fold (view (group_add eqb key g x)). fold (view g).
    rewrite IH by exact Hnd'. rewrite ?Hx, ?app_nil_r.
    destruct (existsb (eqb (key x)) (List.map fst g)); reflexivity.
Qed.

(** [group] lays the values out key by key: the keys in the order they
    first occur, each with the values that have it. *)
Theorem group_view (l : list A) :
  view (group eqb key l)
  = List.map (fun k => (k, filter (fun x => eqb (key x) k) l))
        (uniq eqb (List.map key l)).
Proof.
  induction l as [|x l IH] using rev_ind; [reflexivity|].
  rewrite group_snoc, map_app. cbn [List.map]. rewrite uniq_snoc.
  set (U := uniq eqb (List.map key l)) in *.
  assert (HU : List.map fst (group eqb key l) = U).
  { rewrite <- view_keys, IH, map_map. apply map_id. }
  rewrite view_group_add by (rewrite HU; apply NoDup_uniq).
  rewrite HU, IH. unfold set_add. fold U.
  destruct (existsb (eqb (key x)) U) eqn:Hex.
  - rewrite map_map. apply map_ext. intros k. cbn [fst snd].
    rewrite filter_app. cbn [filter].
    destruct (eqb (key x) k); reflexivity.
  - rewrite map_app. cbn [List.map]. f_equal.
    + apply map_ext_in. intros k Hk. rewrite filter_app. cbn [filter].
      assert (Hne : eqb (key x) k = false).
      { apply eqb_neq. intros <-. apply existsb_eqb in Hk. congruence. }
      now rewrite Hne, app_nil_r.
    + rewrite filter_app. cbn [filter]. rewrite eqb_refl.
      destruct (filter (fun x0 => eqb (key x0) (key x)) l) as [|y r] eqn:Hfl;
        [reflexivity|].
      assert (Hy : In y (filter (fun x0 => eqb (key x0) (key x)) l))
        by (rewrite Hfl; now left).
      apply filter_In in Hy. destruct Hy as [Hy1 Hy2].
      apply eqb_eq in Hy2.
      assert (Hin : In (key x) U).
      { unfold U. apply In_uniq. rewrite <- Hy2. now apply in_map. }
      apply existsb_eqb in Hin. congruence.
Qed.

Lemma group_keys (l : list A) :
  List.map fst (group eqb key l) = uniq eqb (List.map key l).
Proof. rewrite <- view_keys, group_view, map_map. apply map_id. Qed.

Lemma group_keys_NoDup (l : list A) : NoDup (List.map fst (group eqb key l)).
Proof. rewrite group_keys. apply NoDup_uniq. Qed.

(** The values of a bin are the values with its key, in their order. *)
Lemma group_bin (l : list A) (k : K) (b : Bin A) :
  In (k, b) (group eqb key l) ->
  values b = filter (fun x => eqb (key x) k) l.
Proof.
  intros Hin.
  assert (Hv : In (k, values b) (view (group eqb key l))).
  { unfold view. apply in_map_iff. exists (k, b). now split. }
  rewrite group_view in Hv. apply in_map_iff in Hv.
  destruct Hv as (k' & Heq & _). now inversion Heq.
Qed.

Lemma group_bin_first (l : list A) (k : K) (b : Bin A) :
  In (k, b) (group eqb key l) -> key (first b) = k /\ In (first b) l.
Proof.
  intros Hin. apply group_bin in Hin.
  assert (Hf : In (first b) (values b)) by now left.
  rewrite Hin in Hf. apply filter_In in Hf. destruct Hf as [Hf1 Hf2].
  apply eqb_eq in Hf2. now split.
Qed.

(** Every value is in the bin of its key. *)
Lemma group_complete (l : list A) (x : A) :
  In x l -> exists b, In (key x, b) (group eqb key l).
Proof.
  intros Hin.
  assert (Hk : In (key x) (List.map fst (group eqb key l))).
  { rewrite group_keys. apply In_uniq. now apply in_map. }
  apply in_map_iff in Hk. destruct Hk as ([k b] & Hk & Hb).
  simpl in Hk. subst k. now exists b.
Qed.

(** Values with distinct keys go one to a bin. *)
Lemma group_add_fresh (g : list (K * Bin A)) (x : A) :
  ~ In (key x) (List.map fst g) ->
  group_add eqb key g x = g ++ [(key x, mkBin x [])].
Proof.
  induction g as [|[k b] g IH]; simpl; intros Hnin; [reflexivity|].
  destruct (eqb (key x) k) eqn:Hx.
  - apply eqb_eq in Hx. subst. tauto.
  - f_equal. apply IH. tauto.
Qed.

Lemma group_NoDup (l : list A) :
  NoDup (List.map key l) ->
  group eqb key l = List.map (fun x => (key x, mkBin x [])) l.
Proof.
  induction l as [|x l IH] using rev_ind; [reflexivity|].
  rewrite map_app. intros Hnd. apply NoDup_remove in Hnd. simpl in Hnd.
  rewrite app_nil_r in Hnd. destruct Hnd as [Hnd Hx].
  rewrite group_snoc, IH by exact Hnd.
  rewrite group_add_fresh; [now rewrite map_app|].
  now rewrite map_map.
Qed.

(** Filtering by a property of the key commutes with [group]. *)
Lemma filter_group_add (p : A -> bool) (g : list (K * Bin A)) (x : A) :
  (forall k b, In (k, b) g -> key x = k -> p (first b) = p x) ->
  filter (fun kb => p (first (snd kb))) (group_add eqb key g x)
  = if p x then group_add eqb key (filter (fun kb => p (first (snd kb))) g) x
    else filter (fun kb => p (first (snd kb))) g.
Proof.
  induction g as [|[k b] g IH]; intros Hg; cbn [group_add filter fst snd].
  - simpl. destruct (p x); reflexivity.
  - assert (IH' := IH (fun k0 b0 Hin => Hg k0 b0 (or_intror Hin))).
    destruct (eqb (key x) k) eqn:Hx; cbn [filter fst snd].
    + unfold push at 1. cbn [first].
      assert (Hk := proj1 (eqb_eq _ _) Hx).
      rewrite (Hg k b (or_introl eq_refl) Hk).
      destruct (p x); [|reflexivity].
      cbn [group_add]. now rewrite Hx.
    + rewrite IH'. destruct (p (first b)); destruct (p x); try reflexivity.
      cbn [group_add]. now rewrite Hx.
Qed.

Lemma filter_group (p : A -> bool) (l : list A) :
  (forall x y, In x l -> In y l -> key x = key y -> p x = p y) ->
  filter (fun kb => p (first (snd kb))) (group eqb key l)
  = group eqb key (filter p l).
Proof.
  induction l as [|x l IH] using rev_ind; intros Hp; [reflexivity|].
  rewrite group_snoc, filter_app, filter_group_add.
  - rewrite IH by (intros; apply Hp; auto using in_or_app).
    cbn [filter]. destruct (p x).
    + now rewrite group_snoc.
    + now rewrite app_nil_r.
  - intros k b Hin Hk. apply group_bin_first in Hin. destruct Hin as [Hf Hl].
    apply Hp; [apply in_or_app; now left|apply in_or_app; right; now left|].
    congruence.
Qed.

End GroupOf.
End Keys.

End GroupFacts.

(* ================================================================== *)
(** * Row normalisation *)
(* ================================================================== *)

Module Normalize.
Import Js.

(** How [process] of the funnel report relates a parsed row to the row it
    returns: each of issuer, friendly name and agency is the default when
    missing and itself when present; the rest is copied. *)
Definition dropoffsNormalized (r : DailyDropoffsReport.ParsedRow)
           (o : DailyDropoffsReport.DailyDropoffsRow) : Prop :=
  let field (raw : option string) (out dflt : string) :=
    (truthy_str raw = false -> out = dflt)
    /\ (truthy_str raw = true -> Some out = raw) in
  field (DailyDropoffsReport.issuer r) (DailyDropoffsReport.issuer o) "(No Issuer)"
  /\ field (DailyDropoffsReport.friendly_name r)
           (DailyDropoffsReport.friendly_name o) "(No App)"
  /\ field (DailyDropoffsReport.agency r) (DailyDropoffsReport.agency o) "(No Agency)"
  /\ DailyDropoffsReport.iaa o = DailyDropoffsReport.iaa r
  /\ DailyDropoffsReport.start o = DailyDropoffsReport.start r
  /\ DailyDropoffsReport.finish o = DailyDropoffsReport.finish r
  /\ DailyDropoffsReport.steps o = DailyDropoffsReport.steps r.

(** How [process] of the daily-auths report relates a result to the row it
    returns: only the agency has a default. *)
Definition authsNormalized (date : Z) (r : DailyAuthsReport.Result.t)
           (o : DailyAuthsReport.ProcessedResult) : Prop :=
  (truthy_str (DailyAuthsReport.Result.agency r) = false ->
   DailyAuthsReport.agency o = "(No Agency)")
  /\ (truthy_str (DailyAuthsReport.Result.agency r) = true ->
      Some (DailyAuthsReport.agency o) = DailyAuthsReport.Result.agency r)
  /\ DailyAuthsReport.issuer o = DailyAuthsReport.Result.issuer r
  /\ DailyAuthsReport.friendly_name o = DailyAuthsReport.Result.friendly_name r
  /\ DailyAuthsReport.count o = DailyAuthsReport.Result.count r
  /\ DailyAuthsReport.ial o = DailyAuthsReport.Result.ial r
  /\ DailyAuthsReport.iaa o = DailyAuthsReport.Result.iaa r
  /\ DailyAuthsReport.date o = date.

Lemma Forall2_map_r {A B : Type} (R : A -> B -> Prop) (f : A -> B) (l : list A) :
  (forall x, In x l -> R x (f x)) -> Forall2 R l (List.map f l).
Proof.
  induction l as [|x l IH]; simpl; intros H; constructor; auto.
Qed.

(** C7, as the code has it. The funnel report's [process] replaces a
    missing (absent or empty) issuer, friendly name or agency by
    "(No Issuer)", "(No App)" or "(No Agency)" and leaves a present one
    unchanged. The daily-auths report's [process] does so for the agency
    only: it copies issuer and friendly name as they are, missing or not. *)
Theorem process_defaults :
  (forall csvParse str,
      Forall2 dropoffsNormalized (csvParse str)
              (DailyDropoffsReport.process csvParse str))
  /\ (forall Date_new report,
         Forall2 (authsNormalized (Date_new (DailyAuthsReport.start report)))
                 (DailyAuthsReport.results report)
                 (DailyAuthsReport.process Date_new report)).
Proof.
  split.
  - intros csvParse str. apply Forall2_map_r. intros r _.
    unfold dropoffsNormalized. cbn.
    repeat split; auto using JsFacts.or_str_missing, JsFacts.or_str_truthy.
  - intros Date_new report. apply Forall2_map_r. intros r _.
    unfold authsNormalized. cbn.
    repeat split; auto using JsFacts.or_str_missing, JsFacts.or_str_truthy.
Qed.

(** A daily-auths result with an empty issuer and friendly name keeps
    them empty: no "(No Issuer)", no "(No App)". *)
Lemma process_auths_keeps_empty_issuer :
  exists row,
    DailyAuthsReport.process (fun _ => 1609459200000)
      (DailyAuthsReport.mkData
         [DailyAuthsReport.Result.mk 5 1 "" None "" None]
         "2021-01-01T00:00:00Z" "2021-01-02T00:00:00Z")
    = [row]
    /\ DailyAuthsReport.agency row = "(No Agency)"
    /\ DailyAuthsReport.issuer row = "" /\ DailyAuthsReport.issuer row <> "(No Issuer)"
    /\ DailyAuthsReport.friendly_name row = ""
    /\ DailyAuthsReport.friendly_name row <> "(No App)".
Proof.
  eexists. split; [reflexivity|]. cbn. repeat split; discriminate.
Qed.

End Normalize.

(* ================================================================== *)
(** * The example of the test suite *)
(* ================================================================== *)

Module TabulateExample.
Import Js Table DailyAuthsReport.

Definition jan1 : Z := 1609459200000.
Definition jan2 : Z := 1609545600000.

(** The three rows of the example, whatever their apps are called. *)
Definition rows (app1 app2 app3 : string) : list ProcessedResult :=
  [ mkProcessed 100 1 "issuer1" None app1 "agency1" jan1;
    mkProcessed 1 2 "issuer1" None app2 "agency1" jan1;
    mkProcessed 111 1 "issuer1" None app3 "agency1" jan2 ].

(** C8, as the code has it. The three example rows tabulate to the header
    Agency, App, IAL, 2021-01-01, 2021-01-02, Total and, reading the app
    cell by its title, the rows agency1, issuer1, "1", 100, 111, 211 and
    agency1, issuer1, "2", 1, 0, 1: the missing day is 0, and the header
    and every row end with the total column. *)
Theorem tabulate_example (app1 app2 app3 : string) :
  let table := tabulate (Some (rows app1 app2 app3)) None None in
  header table
  = [Text "Agency"; Text "App"; Text "IAL";
     Text "2021-01-01"; Text "2021-01-02"; Text "Total"]
  /\ simplifyVNodes (body table)
     = [ [Text "agency1"; Text "issuer1"; Text "1"; Number 100; Number 111; Number 211];
         [Text "agency1"; Text "issuer1"; Text "2"; Number 1; Number 0; Number 1] ].
Proof. split; reflexivity. Qed.

(** The table of the example is not the one without the total column. *)
Lemma tabulate_example_has_total :
  let table := tabulate (Some (rows "app1" "app1" "app1")) None None in
  header table
  <> [Text "Agency"; Text "App"; Text "IAL"; Text "2021-01-01"; Text "2021-01-02"]
  /\ simplifyVNodes (body table)
     <> [ [Text "agency1"; Text "issuer1"; Text "1"; Number 100; Number 111];
          [Text "agency1"; Text "issuer1"; Text "2"; Number 1; Number 0] ].
Proof. split; vm_compute; discriminate. Qed.

End TabulateExample.

(* ================================================================== *)
(** * Ratios *)
(* ================================================================== *)

Module Ratios.
Import Js D3Array GroupFacts DailyDropoffsReport.

Lemma div_zero_num (b : Z) : or_zero (div 0 b) = zero.
Proof.
  unfold div. destruct (b =? 0); reflexivity.
Qed.

Lemma or_zero_not_NaN (x : JsNumber) : or_zero x <> NaN.
Proof.
  unfold or_zero, zero. destruct x; simpl; try discriminate.
  destruct (negb (Qnum q =? 0)); discriminate.
Qed.

Lemma div_by_zero (a : Z) :
  div a 0 = if a =? 0 then NaN else if 0 <? a then PosInfinity else NegInfinity.
Proof. reflexivity. Qed.

Lemma In_mapi_from {A B : Type} (f : A -> nat -> B) (i : nat) (l : list A) (y : B) :
  In y (mapi_from f i l) -> exists x j, In x l /\ y = f x j.
Proof.
  revert i. induction l as [|x l IH]; simpl; intros i; [intros []|].
  intros [<-|H].
  - exists x, i. auto.
  - destruct (IH _ H) as (x' & j & Hx & Hy). exists x', j. auto.
Qed.

Lemma fold_left_pair_sum {A : Type} (f g : A -> Z) (l : list A) (a b : Z) :
  fold_left (fun result entry => (fst result + f entry, snd result + g entry)) l (a, b)
  = (a + sumOf f l, b + sumOf g l).
Proof.
  revert a b. induction l as [|x l IH]; intros a b; simpl.
  - f_equal; lia.
  - rewrite IH. f_equal; lia.
Qed.

(** The week's ratio of [formatData] is the plain quotient of the two sums
    of the week. *)
Lemma formatData_value (localOffset : Z)
      (data : list Registrations.ProcessedResult)
      (f : Registrations.ProcessedFormattedData) :
  In f (Registrations.formatData localOffset data) ->
  let entries :=
    filter (fun r => Registrations.getStartOfWeek localOffset (Registrations.date r)
                     =? Registrations.week f)
           data in
  Registrations.value f
  = div (sumOf Registrations.deletedUsers entries)
        (sumOf Registrations.fullyRegisteredUsers entries).
Proof.
  unfold Registrations.formatData. intros Hin.
  apply in_map_iff in Hin. destruct Hin as ([w b] & Hf & Hin).
  rewrite fold_left_pair_sum in Hf. subst f.
  cbn [Registrations.value Registrations.week].
  apply (group_bin Z.eqb Z.eqb_eq) in Hin. now rewrite Hin.
Qed.

(** C2, as the code has it. A funnel ratio (percent of first step, percent
    of previous step) is never NaN, and it is 0 whenever the step's own
    count is 0, so also when count and divisor are both 0: the row with
    welcome = 0 and agreement = 0 has percentOfFirst = 0 at the agreement
    step. The account-deletion ratio has no guard: over a week with no
    fully registered users it is NaN when there are no deletions either,
    and infinite otherwise. *)
Theorem ratio_of_zero_divisor :
  (forall (S : Type) (row : Row S) (funnelMode : FunnelMode) (sc : StepCount),
      In sc (toStepCounts row funnelMode) ->
      percentOfFirst sc <> NaN /\ percentOfPrevious sc <> NaN
      /\ (count sc = 0 -> percentOfFirst sc = zero /\ percentOfPrevious sc = zero))
  /\ (forall (S : Type) (row : Row S),
         count_or0 (get row WELCOME) = 0 -> count_or0 (get row AGREEMENT) = 0 ->
         exists sc, nth_error (toStepCounts row OVERALL) 1 = Some sc
                    /\ step sc = AGREEMENT /\ percentOfFirst sc = zero)
  /\ (forall localOffset data f,
         In f (Registrations.formatData localOffset data) ->
         let entries :=
           filter (fun r => Registrations.getStartOfWeek localOffset (Registrations.date r)
                            =? Registrations.week f)
                  data in
         sumOf Registrations.fullyRegisteredUsers entries = 0 ->
         Registrations.value f
         = if sumOf Registrations.deletedUsers entries =? 0 then NaN
           else if 0 <? sumOf Registrations.deletedUsers entries then PosInfinity
                else NegInfinity).
Proof.
  split; [|split].
  - intros S row funnelMode sc Hin. unfold toStepCounts, mapi in Hin.
    apply In_mapi_from in Hin. destruct Hin as (s & idx & _ & ->).
    cbn [percentOfFirst percentOfPrevious count].
    split; [apply or_zero_not_NaN|]. split; [apply or_zero_not_NaN|].
    intros ->. split; apply div_zero_num.
  - intros S row Hw Ha. eexists. split; [reflexivity|].
    cbn [step percentOfFirst key stepAt nth funnelSteps STEPS].
    split; [reflexivity|]. rewrite Ha. apply div_zero_num.
  - intros localOffset data f Hin entries H0.
    rewrite (formatData_value _ _ _ Hin). fold entries. rewrite H0.
    apply div_by_zero.
Qed.

Definition zeroRow : DailyDropoffsRow :=
  mkRow "issuer1" "app1" "iaa1" "agency1" 0 0
        (mkCounts (Some 0) (Some 0) None None None None None None None None None).

Lemma ratio_of_zero_divisor_witness :
  exists sc, nth_error (toStepCounts zeroRow OVERALL) 1 = Some sc
             /\ step sc = AGREEMENT /\ percentOfFirst sc = zero.
Proof.
  apply (proj1 (proj2 ratio_of_zero_divisor) string zeroRow); reflexivity.
Defined.

(** The example of the funnel: welcome = 100 and agreement = 50 give one
    half at the agreement step. *)
Example percentOfFirst_half :
  List.map percentOfFirst
    (firstn 2 (toStepCounts
                 (mkRow "issuer1" "app1" "iaa1" "agency1" 0 0
                        (mkCounts (Some 100) (Some 50) None None None None None None
                                  None None None))
                 OVERALL))
  = [Finite (1 # 1); Finite (1 # 2)].
Proof. reflexivity. Qed.

(** Ratios over a divisor of 0 that are not 0. A week with deletions and
    no fully registered user, and a week with neither, in the
    account-deletions report (2021-01-03 is a Sunday); and a step with a
    count in the funnel that starts at a document submission of 0. *)
Lemma zero_divisor_not_zero :
  let sunday := 1609632000000 in
  let day deleted registered :=
    Registrations.mkResult sunday 10 registered deleted 10 registered in
  Registrations.formatData 0 [day 3 0]
  = [Registrations.mkFormatted sunday PosInfinity]
  /\ Registrations.formatData 0 [day 0 0]
     = [Registrations.mkFormatted sunday NaN]
  /\ List.map percentOfFirst
         (toStepCounts
            (mkRow "issuer1" "app1" "iaa1" "agency1" 0 0
                   (mkCounts None None None (Some 0) (Some 5) None None None None
                             None None))
            BLANKET)
     = [zero; PosInfinity; zero; zero; zero; zero; zero; zero]
  /\ PosInfinity <> zero /\ NaN <> zero.
Proof. repeat split; discriminate. Qed.

End Ratios.

(* ================================================================== *)
(** * The shape of the tables *)
(* ================================================================== *)

Module TableShape.
Import Js D3Array Table.

Ltac in_rows H :=
  repeat match type of H with
         | In _ (flat_map _ _) =>
             let x := fresh "g" in
             let Hx := fresh "Hg" in
             apply in_flat_map in H; destruct H as (x & Hx & H); destruct x
         | In _ (List.map _ _) =>
             let x := fresh "g" in
             let Hx := fresh "Hg" in
             apply in_map_iff in H; destruct H as (x & H & Hx)
         end.

Lemma auths_row_length results filterAgency filterIal row :
  In row (body (DailyAuthsReport.tabulate results filterAgency filterIal)) ->
  List.length row
  = List.length (header (DailyAuthsReport.tabulate results filterAgency filterIal)).
Proof.
  unfold DailyAuthsReport.tabulate. cbn [body header]. intros H.
  in_rows H. destruct g. subst row.
  rewrite !length_app, !length_map. reflexivity.
Qed.

Lemma sumByAgency_row_length (Location : Type) (agencyHref : Location -> string -> string)
      results filterIal location row :
  In row (body (DailyAuthsReport.tabulateSumByAgency agencyHref results filterIal location)) ->
  List.length row
  = List.length
      (header (DailyAuthsReport.tabulateSumByAgency agencyHref results filterIal location)).
Proof.
  unfold DailyAuthsReport.tabulateSumByAgency. cbn [body header]. intros H.
  in_rows H. destruct g. subst row.
  rewrite !length_app, !length_map. reflexivity.
Qed.

Section Funnel.
Variable formatWithCommas : Z -> string.
Variable formatAsPercent : JsNumber -> string.
Variable color : JsNumber -> string.
Variable issuerColor : string -> string.

Let steps (funnelMode : DailyDropoffsReport.FunnelMode) : nat :=
  List.length (DailyDropoffsReport.funnelSteps funnelMode).

Lemma funnel_row_length rows funnelMode filterAgency row :
  let table :=
    DailyDropoffsReport.tabulate formatWithCommas formatAsPercent color issuerColor
      rows funnelMode filterAgency in
  In row (body table) ->
  Z.of_nat (List.length row) = width (header table)
  /\ List.length (header table) = (2 + steps funnelMode)%nat
  /\ List.length row = (1 + 2 * steps funnelMode)%nat.
Proof.
  unfold DailyDropoffsReport.tabulate. cbn [body header]. intros H.
  in_rows H. subst row. destruct funnelMode; repeat split; reflexivity.
Qed.

Lemma funnel_table_row_length rows funnelMode row :
  let table :=
    DailyDropoffsTable.tabulate formatWithCommas formatAsPercent color issuerColor
      rows funnelMode in
  In row (body table) ->
  Z.of_nat (List.length row) = width (header table)
  /\ List.length (header table) = (2 + steps funnelMode)%nat
  /\ List.length row = (1 + 2 * steps funnelMode)%nat.
Proof.
  unfold DailyDropoffsTable.tabulate. cbn [body header]. intros H.
  in_rows H. subst row. destruct funnelMode; repeat split; reflexivity.
Qed.
End Funnel.

Lemma registrations_row_length results row :
  In row (body (Registrations.tabulateRegistrations results)) ->
  List.length row = List.length (header (Registrations.tabulateRegistrations results)).
Proof.
  cbn. intros H. repeat destruct H as [<-|H]; try contradiction;
    cbn; now rewrite !length_map.
Qed.

Lemma deletions_row_length results row :
  In row (body (Registrations.tabulateDeletions results)) ->
  List.length row = List.length (header (Registrations.tabulateDeletions results)).
Proof.
  unfold Registrations.tabulateDeletions. cbn [body header]. intros H.
  in_rows H. now subst row.
Qed.

(** C3, as the code has it. In the tables of the daily-auths report
    ([tabulate], [tabulateSumByAgency]), and in those of the registrations
    and account-deletions reports, every body row has as many cells as the
    header. In the funnel tables a header cell spans one column for the
    first step and two for every later step: every body row has as many
    cells as the header spans columns, which is 1 + 2n cells under a
    header of 2 + n cells, for a funnel of n steps. *)
Theorem body_rows_fit_header :
  (forall results filterAgency filterIal row,
      In row (body (DailyAuthsReport.tabulate results filterAgency filterIal)) ->
      List.length row
      = List.length (header (DailyAuthsReport.tabulate results filterAgency filterIal)))
  /\ (forall (Location : Type) (agencyHref : Location -> string -> string)
             results filterIal location row,
         In row (body (DailyAuthsReport.tabulateSumByAgency
                         agencyHref results filterIal location)) ->
         List.length row
         = List.length (header (DailyAuthsReport.tabulateSumByAgency
                                  agencyHref results filterIal location)))
  /\ (forall formatWithCommas formatAsPercent color issuerColor
             rows funnelMode filterAgency row,
         let table :=
           DailyDropoffsReport.tabulate formatWithCommas formatAsPercent color
             issuerColor rows funnelMode filterAgency in
         let n := List.length (DailyDropoffsReport.funnelSteps funnelMode) in
         In row (body table) ->
         Z.of_nat (List.length row) = width (header table)
         /\ List.length (header table) = (2 + n)%nat
         /\ List.length row = (1 + 2 * n)%nat)
  /\ (forall formatWithCommas formatAsPercent color issuerColor
             rows funnelMode row,
         let table :=
           DailyDropoffsTable.tabulate formatWithCommas formatAsPercent color
             issuerColor rows funnelMode in
         let n := List.length (DailyDropoffsReport.funnelSteps funnelMode) in
         In row (body table) ->
         Z.of_nat (List.length row) = width (header table)
         /\ List.length (header table) = (2 + n)%nat
         /\ List.length row = (1 + 2 * n)%nat)
  /\ (forall results row,
         In row (body (Registrations.tabulateRegistrations results)) ->
         List.length row
         = List.length (header (Registrations.tabulateRegistrations results)))
  /\ (forall results row,
         In row (body (Registrations.tabulateDeletions results)) ->
         List.length row
         = List.length (header (Registrations.tabulateDeletions results))).
Proof.
  split; [exact auths_row_length|].
  split; [exact sumByAgency_row_length|].
  split; [exact funnel_row_length|].
  split; [exact funnel_table_row_length|].
  split; [exact registrations_row_length|exact deletions_row_length].
Qed.

Definition noFormat : Z -> string := fun _ => "".
Definition noPercent : JsNumber -> string := fun _ => "".
Definition noColor : string -> string := fun _ => "".

Definition funnelRow : DailyDropoffsReport.DailyDropoffsRow :=
  DailyDropoffsReport.mkRow "issuer1" "app1" "iaa1" "agency1" 0 0
    (DailyDropoffsReport.mkCounts (Some 100) (Some 50) None None None None None
                                  None None None None).

Lemma body_rows_fit_header_witness :
  let table := DailyAuthsReport.tabulate
                 (Some (TabulateExample.rows "app1" "app1" "app1")) None None in
  let row := [Text "agency1"; Span (Some "issuer1") None [] [Text "app1"]; Text "2";
              Number 1; Number 0; Number 1] in
  In row (body table) /\ List.length row = List.length (header table).
Proof.
  assert (H : In [Text "agency1"; Span (Some "issuer1") None [] [Text "app1"]; Text "2";
                  Number 1; Number 0; Number 1]
                 (body (DailyAuthsReport.tabulate
                          (Some (TabulateExample.rows "app1" "app1" "app1")) None None))).
  { right. left. reflexivity. }
  split; [exact H|].
  exact (proj1 body_rows_fit_header _ None None _ H).
Defined.

(** The funnel table of one row: thirteen header cells over rows of
    twenty-three cells. *)
Lemma funnel_row_longer_than_header :
  let table :=
    DailyDropoffsTable.tabulate noFormat noPercent noPercent noColor
      [funnelRow] DailyDropoffsReport.OVERALL in
  exists row, body table = [row]
              /\ List.length (header table) = 13%nat
              /\ List.length row = 23%nat
              /\ List.length row <> List.length (header table).
Proof.
  eexists. split; [reflexivity|]. repeat split; try reflexivity.
  cbn. discriminate.
Qed.

End TableShape.

(* ================================================================== *)
(** * The days of a range *)
(* ================================================================== *)

Module DayFacts.
Import D3Time.

(** A date is a UTC midnight. *)
Definition midnight (d : Z) : Prop := d mod durationDay = 0.

Lemma floor_midnight (t : Z) : midnight (floor t).
Proof.
  unfold midnight, floor, durationDay. Z.to_euclidean_division_equations. lia.
Qed.

Lemma floor_bounds (t : Z) : floor t <= t < floor t + durationDay.
Proof.
  unfold floor, durationDay. Z.to_euclidean_division_equations. lia.
Qed.

Lemma floor_of_midnight (d : Z) : midnight d -> floor d = d.
Proof. unfold midnight, floor. intros ->. lia. Qed.

Lemma midnight_offset (d step : Z) : midnight d -> midnight (offset d step).
Proof.
  unfold midnight, offset, durationDay. Z.to_euclidean_division_equations. lia.
Qed.

Lemma ceil_midnight (t : Z) : midnight (ceil t).
Proof. apply floor_midnight. Qed.

Lemma ceil_bounds (t : Z) : t <= ceil t < t + durationDay.
Proof.
  unfold ceil.
  rewrite (floor_of_midnight (midnight_offset 1 (floor_midnight (t - 1)))).
  pose proof (floor_bounds (t - 1)). unfold offset. lia.
Qed.

(** Two midnights are equal or a day apart. *)
Lemma midnight_gap (c d : Z) :
  midnight c -> midnight d -> c < d -> c + durationDay <= d.
Proof.
  unfold midnight, durationDay. Z.to_euclidean_division_equations. lia.
Qed.

Lemma range_loop_In (fuel : nat) (c stop d : Z) :
  midnight c -> c < stop -> stop - c <= Z.of_nat fuel * durationDay ->
  In d (range_loop fuel c stop 1) <-> midnight d /\ c <= d < stop.
Proof.
  revert c. induction fuel as [|fuel IH]; intros c Hc Hlt Hfuel.
  - simpl in Hfuel. lia.
  - cbn [range_loop].
    assert (Hnext : floor (offset c 1) = c + durationDay).
    { rewrite floor_of_midnight by now apply midnight_offset.
      unfold offset. lia. }
    rewrite Hnext.
    assert (Hday : 0 < durationDay) by reflexivity.
    destruct (Z.ltb_spec c (c + durationDay)) as [_|]; [|lia].
    destruct (Z.ltb_spec (c + durationDay) stop) as [Hin|Hout]; cbn [andb In].
    + rewrite IH; [| |exact Hin|lia].
      * split.
        -- intros [<-|(Hd & Hr)]; split; auto; lia.
        -- intros (Hd & Hr). destruct (Z.eq_dec c d) as [->|Hne]; [now left|].
           right. split; [exact Hd|].
           pose proof (midnight_gap Hc Hd). lia.
      * rewrite <- Hnext. apply floor_midnight.
    + split.
      * intros [<-|[]]. split; [exact Hc|lia].
      * intros (Hd & Hr). left.
        destruct (Z.eq_dec c d) as [->|Hne]; [reflexivity|].
        pose proof (midnight_gap Hc Hd). lia.
Qed.

Lemma range_loop_sorted (fuel : nat) (c stop : Z) :
  midnight c -> StronglySorted Z.lt (range_loop fuel c stop 1)
                /\ Forall (fun d => c <= d) (range_loop fuel c stop 1).
Proof.
  revert c. induction fuel as [|fuel IH]; intros c Hc; cbn [range_loop].
  - split; constructor.
  - assert (Hnext : floor (offset c 1) = c + durationDay).
    { rewrite floor_of_midnight by now apply midnight_offset.
      unfold offset. lia. }
    rewrite Hnext.
    assert (Hday : 0 < durationDay) by reflexivity.
    destruct ((c <? c + durationDay) && (c + durationDay <? stop)).
    + assert (Hn : midnight (c + durationDay))
        by (rewrite <- Hnext; apply floor_midnight).
      destruct (IH _ Hn) as [Hs Hall]. split.
      * constructor; [exact Hs|].
        eapply Forall_impl; [|exact Hall]. simpl. intros. lia.
      * constructor; [lia|].
        eapply Forall_impl; [|exact Hall]. simpl. intros. lia.
    + split; repeat constructor. lia.
Qed.

(** [utcDays(start, stop)] is the UTC midnights from [start] on and before
    [stop], each once, in ascending order. *)
Theorem utcDays_In (start stop d : Z) :
  In d (utcDays start stop 1) <-> midnight d /\ start <= d < stop.
Proof.
  unfold utcDays, range.
  pose proof (ceil_bounds start) as Hb. pose proof (ceil_midnight start) as Hm.
  change (0 <? 1) with true.
  destruct (Z.ltb_spec (ceil start) stop) as [Hlt|Hge]; cbn [negb orb].
  - rewrite range_loop_In; [|exact Hm|exact Hlt|].
    + split; intros (Hd & Hr); (split; [exact Hd|]); [lia|].
      split; [|lia].
      destruct (Z_lt_le_dec d (ceil start)) as [Hlow|]; [|lia].
      pose proof (midnight_gap Hd Hm Hlow). lia.
    + rewrite Z2Nat.id.
      * unfold durationDay. Z.to_euclidean_division_equations. lia.
      * unfold durationDay. Z.to_euclidean_division_equations. lia.
  - split; [intros []|]. intros (Hd & Hr).
    destruct (Z_lt_le_dec d (ceil start)) as [Hlow|]; [|lia].
    pose proof (midnight_gap Hd Hm Hlow). lia.
Qed.

Theorem utcDays_sorted (start stop : Z) : StronglySorted Z.lt (utcDays start stop 1).
Proof.
  unfold utcDays, range.
  destruct (negb (ceil start <? stop) || negb (0 <? 1)); [constructor|].
  apply range_loop_sorted, ceil_midnight.
Qed.

Lemma sorted_days_NoDup (l : list Z) : StronglySorted Z.lt l -> NoDup l.
Proof.
  induction 1 as [|x l Hs IH Hall]; constructor; [|exact IH].
  intros Hin. rewrite Forall_forall in Hall. specialize (Hall _ Hin). lia.
Qed.

End DayFacts.

(* ================================================================== *)
(** * The loaders *)
(* ================================================================== *)

Module Loader.
Import D3Time DayFacts.
Import Promise.

(** [ps] has a rejection with reason [e] settled at [n], and none settled
    earlier. *)
Definition firstRejected {A : Type} (ps : list (Promise.t A)) (n : nat) (e : string)
  : Prop :=
  (exists p, In p ps /\ outcome p = Rejected e /\ settledAt p = n)
  /\ forall q e', In q ps -> outcome q = Rejected e' -> (n <= settledAt q)%nat.

Lemma firstRejection_Some {A : Type} (ps : list (Promise.t A)) (n : nat) (e : string) :
  firstRejection ps = Some (n, e) -> firstRejected ps n e.
Proof.
  revert n e. induction ps as [|p ps IH]; intros n e; cbn [firstRejection];
    [discriminate|].
  destruct (outcome p) as [v|r] eqn:Hp.
  - intros H. destruct (IH _ _ H) as [(q & Hq & Ho & Hs) Hmin]. split.
    + exists q. auto using in_cons.
    + intros q' e' [<-|Hin] Hr; [congruence|eauto].
  - destruct (firstRejection ps) as [[n' e']|] eqn:Hfr.
    + destruct (IH _ _ eq_refl) as [(q & Hq & Ho & Hs) Hmin].
      destruct (Nat.leb_spec (settledAt p) n') as [Hle|Hgt]; intros H;
        injection H as <- <-; split.
      * exists p. auto using in_eq.
      * intros q' e'' [<-|Hin] Hr; [lia|].
        specialize (Hmin _ _ Hin Hr). lia.
      * exists q. auto using in_cons.
      * intros q' e'' [<-|Hin] Hr; [lia|eauto].
    + intros H. injection H as <- <-. split.
      * exists p. auto using in_eq.
      * intros q' e'' [<-|Hin] Hr; [lia|].
        exfalso. clear -Hfr Hin Hr.
        induction ps as [|p0 ps IHps]; [contradiction|].
        cbn [firstRejection] in Hfr. destruct Hin as [<-|Hin].
        -- rewrite Hr in Hfr. destruct (firstRejection ps) as [[? ?]|];
             [destruct (_ <=? _)%nat|]; discriminate.
        -- destruct (outcome p0); [auto|].
           destruct (firstRejection ps) as [[? ?]|];
             [destruct (_ <=? _)%nat|]; discriminate.
Qed.

Lemma firstRejection_None {A : Type} (ps : list (Promise.t A)) (vs : list A) :
  Forall2 (fun p v => outcome p = Fulfilled v) ps vs ->
  firstRejection ps = None /\ fulfilledValues ps = vs.
Proof.
  induction 1 as [|p v ps vs Hp Hall [IH1 IH2]]; [split; reflexivity|].
  unfold fulfilledValues in *. cbn [firstRejection flat_map].
  rewrite Hp, IH1, IH2. split; reflexivity.
Qed.

(** [Promise.all] over promises that all fulfil. *)
Lemma all_fulfilled {A : Type} (ps : list (Promise.t A)) (vs : list A) :
  Forall2 (fun p v => outcome p = Fulfilled v) ps vs ->
  outcome (all ps) = Fulfilled vs.
Proof.
  intros H. destruct (firstRejection_None H) as [H1 H2].
  unfold all. rewrite H1. cbn. now rewrite H2.
Qed.

(** [Promise.all] over promises one of which rejects. *)
Lemma all_rejected {A : Type} (ps : list (Promise.t A)) (p : Promise.t A) (e : string) :
  In p ps -> outcome p = Rejected e ->
  exists n e', all ps = mk n (Rejected e') /\ firstRejected ps n e'.
Proof.
  intros Hin Hp. unfold all.
  destruct (firstRejection ps) as [[n e']|] eqn:Hfr.
  - exists n, e'. split; [reflexivity|]. now apply firstRejection_Some.
  - exfalso. induction ps as [|p0 ps IHps]; [contradiction|].
    cbn [firstRejection] in Hfr. destruct Hin as [<-|Hin].
    + rewrite Hp in Hfr. destruct (firstRejection ps) as [[? ?]|];
        [destruct (_ <=? _)%nat|]; discriminate.
    + destruct (outcome p0); [auto|].
      destruct (firstRejection ps) as [[? ?]|];
        [destruct (_ <=? _)%nat|]; discriminate.
Qed.

Lemma map_rejected {A B : Type} (n : nat) (e : string) (f : A -> B) :
  Promise.map (mk n (@Rejected A e)) f = mk n (Rejected e).
Proof. reflexivity. Qed.

Lemma Forall2_map_l {A B C : Type} (R : B -> C -> Prop) (f : A -> B)
      (l : list A) (l' : list C) :
  Forall2 (fun x y => R (f x) y) l l' -> Forall2 R (List.map f l) l'.
Proof. induction 1; simpl; constructor; auto. Qed.

Section Auths.
Variable Date_new : string -> Z.
Variable reportPath : string -> Z -> string -> option string -> string.
Variable Response : Type.
Variable json : Response -> Promise.t DailyAuthsReport.DailyAuthsReportData.
Variable fetch : string -> Promise.t Response.
Variables (start finish : Z) (env : string).

(** The promise of one day of the daily-auths report: the fetch, then the
    parse of the body. *)
Definition authsDay (date : Z) : Promise.t DailyAuthsReport.DailyAuthsReportData :=
  bind (fetch (reportPath "daily-auths-report" date env None)) json.

Lemma auths_loadData_unfold :
  DailyAuthsReport.loadData Date_new reportPath json start finish env fetch
  = (List.map (fun d => reportPath "daily-auths-report" d env None)
         (utcDays start finish 1),
     Promise.map (all (List.map authsDay (utcDays start finish 1)))
       (fun reports => flat_map (DailyAuthsReport.process Date_new) reports)).
Proof.
  unfold DailyAuthsReport.loadData. rewrite !map_map. reflexivity.
Qed.

Lemma auths_loadData_fulfilled reports :
  Forall2 (fun d r => outcome (authsDay d) = Fulfilled r)
          (utcDays start finish 1) reports ->
  outcome (snd (DailyAuthsReport.loadData Date_new reportPath json start finish env fetch))
  = Fulfilled (flat_map (DailyAuthsReport.process Date_new) reports).
Proof.
  intros H. rewrite auths_loadData_unfold. cbn [snd].
  apply (Forall2_map_l (fun p v => outcome p = Fulfilled v) authsDay) in H.
  apply all_fulfilled in H.
  unfold Promise.map. now rewrite H.
Qed.

Lemma auths_loadData_rejected day reason :
  In day (utcDays start finish 1) ->
  outcome (authsDay day) = Rejected reason ->
  exists n e,
    snd (DailyAuthsReport.loadData Date_new reportPath json start finish env fetch)
    = mk n (Rejected e)
    /\ firstRejected (List.map authsDay (utcDays start finish 1)) n e.
Proof.
  intros Hin Hr. rewrite auths_loadData_unfold. cbn [snd].
  destruct (@all_rejected _ _ (authsDay day) _ (in_map authsDay _ _ Hin) Hr)
    as (n & e & Hall & Hfirst).
  exists n, e. rewrite Hall. split; [reflexivity|exact Hfirst].
Qed.
End Auths.

Section Dropoffs.
Variable csvParse : string -> list DailyDropoffsReport.ParsedRow.
Variable reportPath : string -> Z -> string -> option string -> string.
Variable Response : Type.
Variable text : Response -> Promise.t string.
Variable fetch : string -> Promise.t Response.
Variables (start finish : Z) (env : string).

(** The promise of one day of the funnel report: the fetch, then the text
    of the body. *)
Definition dropoffsDay (date : Z) : Promise.t string :=
  bind (fetch (reportPath "daily-dropoffs-report" date env (Some "csv"))) text.

Lemma dropoffs_loadData_unfold :
  DailyDropoffsReport.loadData csvParse reportPath text start finish env fetch
  = (List.map (fun d => reportPath "daily-dropoffs-report" d env (Some "csv"))
         (utcDays start finish 1),
     Promise.map (all (List.map dropoffsDay (utcDays start finish 1)))
       (fun reports =>
          DailyDropoffsReport.aggregate
            (flat_map (DailyDropoffsReport.process csvParse) reports))).
Proof.
  unfold DailyDropoffsReport.loadData. rewrite !map_map. reflexivity.
Qed.

Lemma dropoffs_loadData_fulfilled reports :
  Forall2 (fun d r => outcome (dropoffsDay d) = Fulfilled r)
          (utcDays start finish 1) reports ->
  outcome (snd (DailyDropoffsReport.loadData csvParse reportPath text
                                             start finish env fetch))
  = Fulfilled (DailyDropoffsReport.aggregate
                 (flat_map (DailyDropoffsReport.process csvParse) reports)).
Proof.
  intros H. rewrite dropoffs_loadData_unfold. cbn [snd].
  apply (Forall2_map_l (fun p v => outcome p = Fulfilled v) dropoffsDay) in H.
  apply all_fulfilled in H.
  unfold Promise.map. now rewrite H.
Qed.

Lemma dropoffs_loadData_rejected day reason :
  In day (utcDays start finish 1) ->
  outcome (dropoffsDay day) = Rejected reason ->
  exists n e,
    snd (DailyDropoffsReport.loadData csvParse reportPath text start finish env fetch)
    = mk n (Rejected e)
    /\ firstRejected (List.map dropoffsDay (utcDays start finish 1)) n e.
Proof.
  intros Hin Hr. rewrite dropoffs_loadData_unfold. cbn [snd].
  destruct (@all_rejected _ _ (dropoffsDay day) _ (in_map dropoffsDay _ _ Hin) Hr)
    as (n & e & Hall & Hfirst).
  exists n, e. rewrite Hall. split; [reflexivity|exact Hfirst].
Qed.
End Dropoffs.

End Loader.

Module LoaderContract.
Import D3Time DayFacts Promise Loader.

(** C4, as the code has it. [loadData] calls [fetch] once for every UTC
    midnight d with start <= d < finish, in ascending order: the day of
    [finish] is fetched only when [finish] is after its midnight, the day
    of [start] only when [start] is a midnight. When every day's promise
    fulfils, the daily-auths loader returns the rows of the days
    concatenated in day order, every row dated by the [start] of the
    report it came in; the funnel loader returns [aggregate] of the
    concatenated rows, one row per issuer. *)
Theorem loadData_one_fetch_per_day (start finish : Z) :
  let days := utcDays start finish 1 in
  (forall d, In d days <-> midnight d /\ start <= d < finish)
  /\ StronglySorted Z.lt days
  /\ NoDup days
  /\ (forall Date_new reportPath (Response : Type)
             (json : Response -> Promise.t DailyAuthsReport.DailyAuthsReportData)
             env fetch,
         let loaded :=
           DailyAuthsReport.loadData Date_new reportPath json start finish env fetch in
         fst loaded = List.map (fun d => reportPath "daily-auths-report" d env None) days
         /\ (forall reports,
                Forall2 (fun d r => outcome (authsDay reportPath json fetch env d)
                                    = Fulfilled r) days reports ->
                outcome (snd loaded)
                = Fulfilled (flat_map (DailyAuthsReport.process Date_new) reports))
         /\ (forall report row,
                In row (DailyAuthsReport.process Date_new report) ->
                DailyAuthsReport.date row = Date_new (DailyAuthsReport.start report)))
  /\ (forall csvParse reportPath (Response : Type)
             (text : Response -> Promise.t string) env fetch,
         let loaded :=
           DailyDropoffsReport.loadData csvParse reportPath text start finish env fetch in
         fst loaded
         = List.map (fun d => reportPath "daily-dropoffs-report" d env (Some "csv")) days
         /\ (forall reports,
                Forall2 (fun d r => outcome (dropoffsDay reportPath text fetch env d)
                                    = Fulfilled r) days reports ->
                outcome (snd loaded)
                = Fulfilled (DailyDropoffsReport.aggregate
                               (flat_map (DailyDropoffsReport.process csvParse) reports)))).
Proof.
  intros days.
  split; [intros d; apply utcDays_In|].
  split; [apply utcDays_sorted|].
  split; [apply sorted_days_NoDup, utcDays_sorted|].
  split.
  - intros Date_new reportPath Response json env fetch loaded. subst loaded.
    split; [now rewrite auths_loadData_unfold|].
    split; [apply auths_loadData_fulfilled|].
    intros report row Hin. unfold DailyAuthsReport.process in Hin.
    apply in_map_iff in Hin. destruct Hin as (r & <- & _). reflexivity.
  - intros csvParse reportPath Response text env fetch loaded. subst loaded.
    split; [now rewrite dropoffs_loadData_unfold|].
    apply dropoffs_loadData_fulfilled.
Qed.

Definition jan1 : Z := 1609459200000.
Definition jan2 : Z := 1609545600000.
Definition jan3 : Z := 1609632000000.

(** A server for the examples: every day's report has one result. *)
Definition dayReport : DailyAuthsReport.DailyAuthsReportData :=
  DailyAuthsReport.mkData
    [DailyAuthsReport.Result.mk 100 1 "issuer1" None "app1" (Some "agency1")]
    "2021-01-01T00:00:00Z" "2021-01-02T00:00:00Z".

Definition okJson (_ : unit) : Promise.t DailyAuthsReport.DailyAuthsReportData :=
  mk 1 (Fulfilled dayReport).

Definition okFetch (_ : string) : Promise.t unit := mk 1 (Fulfilled tt).

Lemma loadData_one_fetch_per_day_witness :
  outcome (snd (DailyAuthsReport.loadData (fun _ => jan1) Report.path okJson
                                          jan1 jan3 "prod" okFetch))
  = Fulfilled (flat_map (DailyAuthsReport.process (fun _ => jan1))
                        [dayReport; dayReport]).
Proof.
  apply (proj1 (proj2 (proj1 (proj2 (proj2 (proj2
           (loadData_one_fetch_per_day jan1 jan3))))
           (fun _ => jan1) Report.path unit okJson "prod" okFetch))).
  repeat constructor.
Defined.

(** From January 1 to January 2, both at midnight, one report is fetched:
    that of January 1, not that of January 2. *)
Lemma loadData_skips_finish_day :
  fst (DailyAuthsReport.loadData (fun _ => jan1) Report.path okJson
                                 jan1 jan2 "prod" okFetch)
  = ["daily-auths-report/2021-01-01.json?env=prod"]
  /\ Report.path "daily-auths-report" jan2 "prod" None
     = "daily-auths-report/2021-01-02.json?env=prod"
  /\ yearMonthDayFormat jan2 = "2021-01-02"
  /\ ~ In jan2 (utcDays jan1 jan2 1).
Proof.
  repeat split; try reflexivity.
  vm_compute. intros [H|[]]. discriminate.
Qed.

(** C5. When the promise of any day of the range rejects, fetch or parse,
    the promise of [loadData] rejects, with the reason of the day
    promise that rejected first: it holds no rows of any day. *)
Theorem loadData_all_or_nothing :
  (forall Date_new reportPath (Response : Type)
          (json : Response -> Promise.t DailyAuthsReport.DailyAuthsReportData)
          start finish env fetch day reason,
      In day (utcDays start finish 1) ->
      outcome (authsDay reportPath json fetch env day) = Rejected reason ->
      exists n e,
        snd (DailyAuthsReport.loadData Date_new reportPath json start finish env fetch)
        = mk n (Rejected e)
        /\ firstRejected
             (List.map (authsDay reportPath json fetch env) (utcDays start finish 1))
             n e)
  /\ (forall csvParse reportPath (Response : Type)
             (text : Response -> Promise.t string)
             start finish env fetch day reason,
         In day (utcDays start finish 1) ->
         outcome (dropoffsDay reportPath text fetch env day) = Rejected reason ->
         exists n e,
           snd (DailyDropoffsReport.loadData csvParse reportPath text
                                             start finish env fetch)
           = mk n (Rejected e)
           /\ firstRejected
                (List.map (dropoffsDay reportPath text fetch env) (utcDays start finish 1))
                n e).
Proof.
  split.
  - intros. eapply auths_loadData_rejected; eauto.
  - intros. eapply dropoffs_loadData_rejected; eauto.
Qed.

(** A server without the report of January 2. *)
Definition fetchButJan2 (path : string) : Promise.t unit :=
  if String.eqb path (Report.path "daily-auths-report" jan2 "prod" None)
  then mk 2 (Rejected "404")
  else mk 3 (Fulfilled tt).

Lemma loadData_all_or_nothing_witness :
  exists n e,
    snd (DailyAuthsReport.loadData (fun _ => jan1) Report.path okJson
                                   jan1 (jan3 + 1) "prod" fetchButJan2)
    = mk n (Rejected e)
    /\ firstRejected
         (List.map (authsDay Report.path okJson fetchButJan2 "prod")
               (utcDays jan1 (jan3 + 1) 1))
         n e.
Proof.
  apply (proj1 loadData_all_or_nothing (fun _ => jan1) Report.path unit okJson
               jan1 (jan3 + 1) "prod" fetchButJan2 jan2 "404").
  - vm_compute. right. left. reflexivity.
  - reflexivity.
Defined.

Example loadData_rejects_with_404 :
  snd (DailyAuthsReport.loadData (fun _ => jan1) Report.path okJson
                                 jan1 (jan3 + 1) "prod" fetchButJan2)
  = mk 2 (Rejected "404").
Proof. reflexivity. Qed.

End LoaderContract.

(* ================================================================== *)
(** * Comparators *)
(* ================================================================== *)

Module OrderFacts.
Import Js D3Array StringOrder JsFacts.

Lemma ascending_le (a b : string) : ascending a b <= 0 <-> le a b.
Proof.
  unfold ascending, le. destruct (String.compare a b); split; intros H;
    try lia; try congruence; try discriminate.
Qed.

Lemma ascending_zero (a b : string) : ascending a b = 0 <-> a = b.
Proof.
  rewrite <- compare_eq. unfold ascending.
  destruct (String.compare a b); split; intros H; try lia; try discriminate;
    reflexivity.
Qed.

Lemma ascending_neg (a b : string) : ascending a b < 0 <-> lt a b.
Proof.
  unfold ascending, lt. destruct (String.compare a b); split; intros H;
    try lia; try discriminate; reflexivity.
Qed.

Lemma ascending_total (a b : string) : 0 < ascending a b -> ascending b a <= 0.
Proof.
  unfold ascending. rewrite (String.compare_antisym a b).
  destruct (String.compare b a); simpl; lia.
Qed.

Lemma ascending_antisym (a b : string) : 0 < ascending a b <-> ascending b a < 0.
Proof.
  unfold ascending. rewrite (String.compare_antisym a b).
  destruct (String.compare b a); simpl; lia.
Qed.

(** Ascending by a first key, then by a second. *)
Definition lexLe (a b c d : string) : Prop := lt a b \/ (a = b /\ le c d).

Lemma orElse_le (a b c d : string) :
  orElse (ascending a b) (ascending c d) <= 0 <-> lexLe a b c d.
Proof.
  unfold orElse, lexLe.
  destruct (Z.eqb_spec (ascending a b) 0) as [H0|H0].
  - rewrite ascending_le. apply ascending_zero in H0. subst b.
    split; [auto|]. intros [H|[_ H]]; [|exact H].
    now apply lt_irrefl in H.
  - split.
    + intros H. left. apply ascending_neg. lia.
    + intros [H|[H _]]; [apply ascending_neg in H; lia|].
      apply ascending_zero in H. contradiction.
Qed.

Section Lex.
Variable A : Type.
Variables k1 k2 : A -> string.

Definition lex (x y : A) : Z :=
  orElse (ascending (k1 x) (k1 y)) (ascending (k2 x) (k2 y)).

Lemma lex_total (x y : A) : 0 < lex x y -> lex y x <= 0.
Proof.
  unfold lex, orElse.
  destruct (Z.eqb_spec (ascending (k1 x) (k1 y)) 0) as [H0|H0].
  - apply ascending_zero in H0. rewrite H0.
    replace (ascending (k1 y) (k1 y)) with 0 by (symmetry; now apply ascending_zero).
    simpl. apply ascending_total.
  - intros H. apply ascending_antisym in H.
    destruct (Z.eqb_spec (ascending (k1 y) (k1 x)) 0); lia.
Qed.

Lemma lex_trans (x y z : A) : lex x y <= 0 -> lex y z <= 0 -> lex x z <= 0.
Proof.
  unfold lex. rewrite !orElse_le. unfold lexLe.
  intros [H1|[H1 H1']] [H2|[H2 H2']].
  - left. eapply lt_trans; eauto.
  - left. now rewrite <- H2.
  - left. now rewrite H1.
  - right. split; [congruence|]. eapply le_trans; eauto.
Qed.

Lemma sort_lex_sorted (l : list A) :
  StronglySorted (fun x y => lexLe (k1 x) (k1 y) (k2 x) (k2 y)) (sort lex l).
Proof.
  pose proof (sort_StronglySorted lex lex_total lex_trans l) as H.
  eapply StronglySorted_ind with (P := StronglySorted _); [| |exact H].
  - constructor.
  - intros a l0 _ IH Hall. constructor; [exact IH|].
    eapply Forall_impl; [|exact Hall]. intros b Hb. now apply orElse_le.
Qed.
End Lex.

Lemma strict_of_lex {A : Type} (k1 k2 : A -> string) (l : list A) :
  StronglySorted (fun x y => lexLe (k1 x) (k1 y) (k2 x) (k2 y)) l ->
  NoDup (List.map k1 l) ->
  StronglySorted (fun x y => lt (k1 x) (k1 y)) l.
Proof.
  induction 1 as [|x l Hs IH Hall]; intros Hnd; [constructor|].
  cbn [List.map] in Hnd. inversion Hnd as [|? ? Hnin Hnd']; subst.
  constructor; [now apply IH|].
  rewrite Forall_forall in *. intros y Hy.
  destruct (Hall _ Hy) as [Hlt|[Heq _]]; [exact Hlt|].
  exfalso. apply Hnin. rewrite Heq. now apply in_map.
Qed.

Section ByKey.
Variables K B : Type.

Lemma byKey_total (x y : string * B) :
  0 < DailyAuthsReport.byKey ascending x y ->
  DailyAuthsReport.byKey ascending y x <= 0.
Proof. apply ascending_total. Qed.

Lemma byKey_trans (x y z : string * B) :
  DailyAuthsReport.byKey ascending x y <= 0 ->
  DailyAuthsReport.byKey ascending y z <= 0 ->
  DailyAuthsReport.byKey ascending x z <= 0.
Proof.
  unfold DailyAuthsReport.byKey. rewrite !ascending_le. apply le_trans.
Qed.

(** Sorted by distinct keys is strictly ascending. *)
Lemma sort_byKey_sorted (l : list (string * B)) :
  NoDup (List.map fst l) ->
  StronglySorted (fun x y => lt (fst x) (fst y))
                 (sort (DailyAuthsReport.byKey ascending) l).
Proof.
  intros Hnd.
  assert (Hnd' : NoDup (List.map fst (sort (DailyAuthsReport.byKey ascending) l))).
  { eapply Permutation_NoDup; [|exact Hnd].
    apply Permutation_map. symmetry. apply sort_perm. }
  pose proof (sort_StronglySorted _ byKey_total byKey_trans l) as H.
  revert Hnd'. induction H as [|x l0 Hs IH Hall]; intros Hnd'; [constructor|].
  cbn [List.map] in Hnd'. inversion Hnd' as [|? ? Hnin Hnd'']; subst.
  constructor; [now apply IH|].
  rewrite Forall_forall in *. intros y Hy.
  specialize (Hall _ Hy). unfold cle, DailyAuthsReport.byKey in Hall.
  apply ascending_le, le_lt_or_eq in Hall. destruct Hall as [Hlt|Heq]; [exact Hlt|].
  exfalso. apply Hnin. rewrite Heq. now apply in_map.
Qed.
End ByKey.

(** Sortedness of concatenated blocks. *)
Lemma StronglySorted_app {A : Type} (R : A -> A -> Prop) (l1 l2 : list A) :
  StronglySorted R l1 -> StronglySorted R l2 ->
  (forall a b, In a l1 -> In b l2 -> R a b) ->
  StronglySorted R (l1 ++ l2).
Proof.
  induction 1 as [|x l1 Hs IH Hall]; intros H2 Hcross; [exact H2|].
  simpl. constructor.
  - apply IH; [exact H2|]. intros. apply Hcross; [now right|assumption].
  - apply Forall_app. split; [exact Hall|].
    apply Forall_forall. intros b Hb. apply Hcross; [now left|exact Hb].
Qed.

Lemma StronglySorted_flat_map {A B : Type} (Q : A -> A -> Prop) (R : B -> B -> Prop)
      (f : A -> list B) (l : list A) :
  StronglySorted Q l ->
  (forall x, In x l -> StronglySorted R (f x)) ->
  (forall x y a b, Q x y -> In a (f x) -> In b (f y) -> R a b) ->
  StronglySorted R (flat_map f l).
Proof.
  induction 1 as [|x l Hs IH Hall]; intros Hin Hcross; [constructor|].
  cbn [flat_map]. apply StronglySorted_app.
  - apply Hin. now left.
  - apply IH; [|exact Hcross]. intros. apply Hin. now right.
  - intros a b Ha Hb. apply in_flat_map in Hb. destruct Hb as (y & Hy & Hb).
    rewrite Forall_forall in Hall. eauto.
Qed.

Lemma StronglySorted_map {A B : Type} (R : B -> B -> Prop) (f : A -> B) (l : list A) :
  StronglySorted (fun x y => R (f x) (f y)) l -> StronglySorted R (List.map f l).
Proof.
  induction 1 as [|x l Hs IH Hall]; simpl; constructor; [exact IH|].
  apply Forall_map. exact Hall.
Qed.

End OrderFacts.

(* ================================================================== *)
(** * [aggregate] *)
(* ================================================================== *)

Module AggregateFacts.
Import Js D3Array StringOrder JsFacts GroupFacts OrderFacts DailyDropoffsReport.

Lemma Step_eqb_eq (a b : Step) : Step_eqb a b = true <-> a = b.
Proof. destruct a, b; simpl; split; congruence. Qed.

Lemma String_eqb_eq (a b : string) : String.eqb a b = true <-> a = b.
Proof. apply String.eqb_eq. Qed.

(** The row [aggregate] makes of a bin. *)
Definition rowOfBin (bin : Bin DailyDropoffsRow) : DailyDropoffsRow :=
  let r0 := first bin in
  mkRow (issuer r0) (friendly_name r0) (iaa r0) (agency r0) (start r0) (finish r0)
        (fromEntries (sumSteps (values bin))).

(** The comparator of [aggregate]: by issuer, then by the friendly name of
    the first row. *)
Definition byIssuer : string * Bin DailyDropoffsRow -> string * Bin DailyDropoffsRow -> Z :=
  lex fst (fun kb => friendly_name (first (snd kb))).

Lemma aggregate_unfold (rows : list DailyDropoffsRow) :
  aggregate rows
  = List.map (fun kb => rowOfBin (snd kb))
        (sort byIssuer (group String.eqb (@issuer string) rows)).
Proof.
  unfold aggregate. apply map_ext. intros [k b]. reflexivity.
Qed.

(** ** The sums of a bin *)

Section Sums.
Variable row : DailyDropoffsRow.

Let addStep (steps : list (Step * Z)) (s : StepInfo) : list (Step * Z) :=
  let oldCount := count_or0 (map_get Step_eqb steps (key s)) in
  map_set Step_eqb steps (key s) (count_or0 (get row (key s)) + oldCount).

Lemma addSteps_get (L : list StepInfo) (m : list (Step * Z)) (k : Step) :
  NoDup (List.map key L) ->
  map_get Step_eqb (fold_left addStep L m) k
  = if existsb (fun s => Step_eqb k (key s)) L
    then Some (count_or0 (get row k) + count_or0 (map_get Step_eqb m k))
    else map_get Step_eqb m k.
Proof.
  revert m. induction L as [|s L IH]; intros m Hnd; [reflexivity|].
  cbn [List.map] in Hnd. inversion Hnd as [|? ? Hnin Hnd']; subst.
  cbn [fold_left existsb]. rewrite IH by exact Hnd'.
  destruct (Step_eqb k (key s)) eqn:Hk; cbn [orb].
  - apply Step_eqb_eq in Hk. subst k.
    destruct (existsb (fun s0 => Step_eqb (key s) (key s0)) L) eqn:Hex.
    + exfalso. apply Hnin. apply existsb_exists in Hex.
      destruct Hex as (s' & Hs' & Heq). apply Step_eqb_eq in Heq.
      rewrite Heq. now apply in_map.
    + unfold addStep. apply (map_get_set_same Step_eqb Step_eqb_eq).
  - assert (Hne : k <> key s).
    { intros ->. rewrite (proj2 (Step_eqb_eq _ _) eq_refl) in Hk. discriminate. }
    unfold addStep at 1 2.
    rewrite (map_get_set_other Step_eqb Step_eqb_eq) by exact Hne.
    reflexivity.
Qed.

Lemma addSteps_STEPS (m : list (Step * Z)) (k : Step) :
  map_get Step_eqb (fold_left addStep STEPS m) k
  = Some (count_or0 (get row k) + count_or0 (map_get Step_eqb m k)).
Proof.
  rewrite addSteps_get.
  - destruct k; reflexivity.
  - cbn. repeat constructor; cbn; intuition discriminate.
Qed.
End Sums.

Lemma sumSteps_fold (bin : list DailyDropoffsRow) (m : list (Step * Z)) (k : Step) :
  bin <> [] ->
  map_get Step_eqb
    (fold_left (fun steps row =>
       fold_left (fun steps s =>
          let oldCount := count_or0 (map_get Step_eqb steps (key s)) in
          map_set Step_eqb steps (key s) (count_or0 (get row (key s)) + oldCount))
         STEPS steps) bin m) k
  = Some (sumOf (fun r => count_or0 (get r k)) bin
          + count_or0 (map_get Step_eqb m k)).
Proof.
  revert m. induction bin as [|r bin IH]; intros m Hne; [contradiction|].
  cbn [fold_left sumOf fold_right].
  destruct bin as [|r' bin].
  - cbn [fold_left fold_right]. rewrite addSteps_STEPS. f_equal. lia.
  - rewrite IH by discriminate. rewrite addSteps_STEPS.
    cbn [count_or0]. rewrite or0_id. f_equal. unfold sumOf. lia.
Qed.

(** Every step of the sums of a bin is the sum of the step over the rows of
    the bin, a missing count being 0. *)
Lemma sumSteps_get (bin : list DailyDropoffsRow) (k : Step) :
  bin <> [] ->
  map_get Step_eqb (sumSteps bin) k = Some (sumOf (fun r => count_or0 (get r k)) bin).
Proof.
  intros Hne. unfold sumSteps. rewrite sumSteps_fold by exact Hne.
  cbn [map_get count_or0]. f_equal. lia.
Qed.

Lemma get_fromEntries (S : Type) (i f a : S) ia st fi (m : list (Step * Z)) (k : Step) :
  get (mkRow i f ia a st fi (fromEntries m)) k = map_get Step_eqb m k.
Proof. destruct k; reflexivity. Qed.

Lemma rowOfBin_get (bin : Bin DailyDropoffsRow) (k : Step) :
  get (rowOfBin bin) k = Some (sumOf (fun r => count_or0 (get r k)) (values bin)).
Proof.
  unfold rowOfBin. rewrite get_fromEntries. apply sumSteps_get. discriminate.
Qed.

(** A row whose counts are all present is the row of its own bin. *)
Lemma rowOfBin_single (r : DailyDropoffsRow) :
  (forall k, exists n, get r k = Some n) -> rowOfBin (mkBin r []) = r.
Proof.
  intros H. unfold rowOfBin. cbn [first values pushed].
  destruct r as [i f ia a st fi c]. cbn [issuer friendly_name iaa agency start finish].
  f_equal. unfold fromEntries.
  rewrite !sumSteps_get by discriminate. cbn [sumOf fold_right].
  destruct c as [w ag cd cs sn vi vs ph en pk ve].
  pose proof (H WELCOME) as [? H1]. pose proof (H AGREEMENT) as [? H2].
  pose proof (H CAPTURE_DOCUMENT) as [? H3]. pose proof (H CAP_DOC_SUBMIT) as [? H4].
  pose proof (H SSN) as [? H5]. pose proof (H VERIFY_INFO) as [? H6].
  pose proof (H VERIFY_SUBMIT) as [? H7]. pose proof (H PHONE) as [? H8].
  pose proof (H ENCRYPT) as [? H9]. pose proof (H PERSONAL_KEY) as [? H10].
  pose proof (H VERIFIED) as [? H11].
  cbn in H1, H2, H3, H4, H5, H6, H7, H8, H9, H10, H11. subst.
  unfold values, sumOf.
  cbn [first pushed fold_right get steps welcome agreement capture_document
       cap_doc_submit ssn verify_info verify_submit phone encrypt personal_key
       verified count_or0].
  rewrite !or0_id, !Z.add_0_r. reflexivity.
Qed.

(** ** The order of the rows *)

Lemma sorted_bins (rows : list DailyDropoffsRow) :
  StronglySorted (fun x y => lt (fst x) (fst y))
                 (sort byIssuer (group String.eqb (@issuer string) rows)).
Proof.
  apply strict_of_lex with (k2 := fun kb => friendly_name (first (snd kb))).
  - apply sort_lex_sorted.
  - eapply Permutation_NoDup;
      [apply Permutation_map; symmetry; apply sort_perm|].
    apply (group_keys_NoDup String.eqb String_eqb_eq).
Qed.

Lemma sorted_bin_first (rows : list DailyDropoffsRow) (k : string)
      (b : Bin DailyDropoffsRow) :
  In (k, b) (sort byIssuer (group String.eqb (@issuer string) rows)) ->
  issuer (first b) = k /\ In (first b) rows
  /\ values b = filter (fun r => String.eqb (issuer r) k) rows.
Proof.
  intros Hin. apply In_sort in Hin.
  destruct (group_bin_first String.eqb String_eqb_eq _ _ _ _ Hin) as [H1 H2].
  split; [exact H1|]. split; [exact H2|].
  now apply (group_bin String.eqb String_eqb_eq).
Qed.

(** [aggregate] returns its rows strictly ascending by issuer. *)
Lemma aggregate_sorted (rows : list DailyDropoffsRow) :
  StronglySorted (fun x y => lt (issuer x) (issuer y)) (aggregate rows).
Proof.
  rewrite aggregate_unfold. apply StronglySorted_map.
  pose proof (sorted_bins rows) as H.
  assert (Hk : forall kb, In kb (sort byIssuer (group String.eqb (@issuer string) rows)) ->
                          issuer (rowOfBin (snd kb)) = fst kb).
  { intros [k b] Hin. apply sorted_bin_first in Hin. cbn. tauto. }
  induction H as [|x l Hs IH Hall]; [constructor|].
  constructor.
  - apply IH. intros kb Hin. apply Hk. now right.
  - rewrite Forall_forall in *. intros y Hy.
    rewrite (Hk x (or_introl eq_refl)), (Hk y (or_intror Hy)). now apply Hall.
Qed.

Lemma StronglySorted_lt_NoDup {A : Type} (f : A -> string) (l : list A) :
  StronglySorted (fun x y => lt (f x) (f y)) l -> NoDup (List.map f l).
Proof.
  induction 1 as [|x l Hs IH Hall]; cbn; constructor; [|exact IH].
  intros Hin. apply in_map_iff in Hin. destruct Hin as (y & Heq & Hy).
  rewrite Forall_forall in Hall. specialize (Hall _ Hy).
  rewrite Heq in Hall. now apply lt_irrefl in Hall.
Qed.

Lemma aggregate_issuers_NoDup (rows : list DailyDropoffsRow) :
  NoDup (List.map (@issuer string) (aggregate rows)).
Proof. apply StronglySorted_lt_NoDup, aggregate_sorted. Qed.

(** ** The rows of [aggregate] *)

Lemma aggregate_In (rows : list DailyDropoffsRow) (out : DailyDropoffsRow) :
  In out (aggregate rows) ->
  exists r0 rest,
    filter (fun r => String.eqb (issuer r) (issuer out)) rows = r0 :: rest
    /\ issuer r0 = issuer out
    /\ friendly_name out = friendly_name r0 /\ iaa out = iaa r0
    /\ agency out = agency r0 /\ start out = start r0 /\ finish out = finish r0
    /\ forall k, get out k
                 = Some (sumOf (fun r => count_or0 (get r k)) (r0 :: rest)).
Proof.
  rewrite aggregate_unfold. intros Hin. apply in_map_iff in Hin.
  destruct Hin as ([k b] & <- & Hin). cbn [snd].
  apply sorted_bin_first in Hin. destruct Hin as (Hk & _ & Hv). subst k.
  exists (first b), (pushed b).
  change (issuer (rowOfBin b)) with (issuer (first b)).
  split; [rewrite <- Hv; reflexivity|].
  repeat (split; [reflexivity|]). intros s. apply rowOfBin_get.
Qed.

Lemma aggregate_complete (rows : list DailyDropoffsRow) (r : DailyDropoffsRow) :
  In r rows -> exists out, In out (aggregate rows) /\ issuer out = issuer r.
Proof.
  intros Hin.
  destruct (group_complete String.eqb String_eqb_eq (@issuer string) _ _ Hin)
    as (b & Hb).
  exists (rowOfBin b). split.
  - rewrite aggregate_unfold. apply in_map_iff. exists (issuer r, b).
    split; [reflexivity|]. now apply In_sort.
  - apply (group_bin_first String.eqb String_eqb_eq) in Hb. cbn. tauto.
Qed.

End AggregateFacts.

Module AggregateLaws.
Import Js D3Array StringOrder JsFacts GroupFacts OrderFacts DailyDropoffsReport.
Import AggregateFacts.

(** C10. [aggregate] is idempotent: applied to its own output it returns
    that output, row for row. *)
Theorem aggregate_idempotent (rows : list DailyDropoffsRow) :
  aggregate (aggregate rows) = aggregate rows.
Proof.
  rewrite (aggregate_unfold (aggregate rows)).
  rewrite (group_NoDup String.eqb String_eqb_eq (@issuer string) _
                       (aggregate_issuers_NoDup rows)).
  rewrite sort_sorted_id.
  - rewrite map_map. cbn [snd]. rewrite <- (map_id (aggregate rows)) at 2.
    apply map_ext_in. intros r Hr. apply rowOfBin_single. intros k.
    destruct (aggregate_In _ _ Hr) as (r0 & rest & _ & _ & _ & _ & _ & _ & _ & Hget).
    eexists. apply Hget.
  - apply StronglySorted_Sorted, StronglySorted_map.
    eapply StronglySorted_ind with (P := StronglySorted _);
      [constructor| |apply (aggregate_sorted rows)].
    intros r l _ IH Hall. constructor; [exact IH|].
    eapply Forall_impl; [|exact Hall]. intros r' Hlt.
    unfold cle, byIssuer, lex. apply orElse_le. now left.
Qed.

Lemma filter_map_comm {A B : Type} (p : B -> bool) (f : A -> B) (l : list A) :
  filter p (List.map f l) = List.map f (filter (fun x => p (f x)) l).
Proof.
  induction l as [|x l IH]; simpl; [reflexivity|].
  rewrite IH. destruct (p (f x)); reflexivity.
Qed.

(** C9, as the code has it. When every issuer of the list belongs to one
    agency (rows with the same issuer have the same agency), aggregating
    and then filtering by an agency gives the same rows as filtering and
    then aggregating; so does the report's [filteredData]. *)
Theorem aggregate_filter_commute (rows : list DailyDropoffsRow)
        (agency : option string) :
  (forall r1 r2, In r1 rows -> In r2 rows ->
                 issuer r1 = issuer r2 ->
                 DailyDropoffsReport.agency r1 = DailyDropoffsReport.agency r2) ->
  DailyDropoffsTable.filterAgency agency (aggregate rows)
  = aggregate (DailyDropoffsTable.filterAgency agency rows)
  /\ DailyDropoffsTable.filteredData (Some rows) agency
     = aggregate (DailyDropoffsTable.filterAgency agency rows).
Proof.
  intros Hone.
  assert (Heq : DailyDropoffsTable.filterAgency agency (aggregate rows)
                = aggregate (DailyDropoffsTable.filterAgency agency rows)).
  { unfold DailyDropoffsTable.filterAgency.
    set (p := fun d : DailyDropoffsRow =>
                negb (truthy_str agency)
                || match agency with
                   | Some a => String.eqb (DailyDropoffsReport.agency d) a
                   | None => false
                   end).
    rewrite !aggregate_unfold, filter_map_comm.
    change (fun x : string * Bin DailyDropoffsRow => p (rowOfBin (snd x)))
      with (fun kb : string * Bin DailyDropoffsRow => p (first (snd kb))).
    unfold byIssuer.
    rewrite (@filter_sort _ _ (lex_total fst (fun kb : string * Bin DailyDropoffsRow =>
                                           friendly_name (first (snd kb))))
                         (lex_trans fst (fun kb : string * Bin DailyDropoffsRow =>
                                           friendly_name (first (snd kb))))).
    rewrite (filter_group String.eqb String_eqb_eq (@issuer string) p); [reflexivity|].
    intros x y Hx Hy Hxy. unfold p. now rewrite (Hone x y Hx Hy Hxy). }
  split; [exact Heq|]. unfold DailyDropoffsTable.filteredData. exact Heq.
Qed.

Definition counts (welcome : Z) : Counts :=
  mkCounts (Some welcome) None None None None None None None None None None.

Definition oneAgencyPerIssuer : list DailyDropoffsRow :=
  [ mkRow "issuer2" "app2" "iaa" "agency2" 0 0 (counts 5);
    mkRow "issuer1" "app1" "iaa" "agency1" 0 0 (counts 1);
    mkRow "issuer1" "app1" "iaa" "agency1" 0 0 (counts 2) ].

Lemma aggregate_filter_commute_witness :
  DailyDropoffsTable.filterAgency (Some "agency1") (aggregate oneAgencyPerIssuer)
  = aggregate (DailyDropoffsTable.filterAgency (Some "agency1") oneAgencyPerIssuer)
  /\ DailyDropoffsTable.filteredData (Some oneAgencyPerIssuer) (Some "agency1")
     = aggregate (DailyDropoffsTable.filterAgency (Some "agency1") oneAgencyPerIssuer).
Proof.
  apply (aggregate_filter_commute oneAgencyPerIssuer (Some "agency1")).
  intros r1 r2 H1 H2. simpl in H1, H2.
  destruct H1 as [<-|[<-|[<-|[]]]]; destruct H2 as [<-|[<-|[<-|[]]]];
    simpl; intros H; (reflexivity || discriminate H).
Defined.

(** An issuer filed under two agencies: aggregating first sums both rows
    under the agency of the first; filtering first keeps each agency's own
    row. *)
Definition sharedIssuer : list DailyDropoffsRow :=
  [ mkRow "issuer1" "app1" "iaa" "agency1" 0 0 (counts 1);
    mkRow "issuer1" "app1" "iaa" "agency2" 0 0 (counts 2) ].

Lemma aggregate_filter_shared_issuer :
  List.map (fun r => get r WELCOME)
      (DailyDropoffsTable.filterAgency (Some "agency1") (aggregate sharedIssuer))
  = [Some 3]
  /\ List.map (fun r => get r WELCOME)
         (aggregate (DailyDropoffsTable.filterAgency (Some "agency1") sharedIssuer))
     = [Some 1]
  /\ DailyDropoffsTable.filterAgency (Some "agency2") (aggregate sharedIssuer) = []
  /\ List.map (fun r => get r WELCOME)
         (aggregate (DailyDropoffsTable.filterAgency (Some "agency2") sharedIssuer))
     = [Some 2]
  /\ DailyDropoffsTable.filterAgency (Some "agency1") (aggregate sharedIssuer)
     <> aggregate (DailyDropoffsTable.filterAgency (Some "agency1") sharedIssuer).
Proof.
  repeat split; try reflexivity. vm_compute. discriminate.
Qed.

(** The daily-auths table filters before it groups, and the filter also
    narrows the days: on the rows of the test suite, the row of agency2 has
    a column for January 2 in the full table and none in its own table. *)
Example tabulate_filter_narrows_days :
  let results :=
    Some (TabulateExample.rows "app1" "app1" "app1"
            ++ [DailyAuthsReport.mkProcessed 1000 1 "issuer2" None "app2" "agency2"
                  TabulateExample.jan1]) in
  filter (fun row => match row with
                     | Table.Text agency :: _ => String.eqb agency "agency2"
                     | _ => false
                     end)
         (DailyAuthsReport.simplifyVNodes
            (Table.body (DailyAuthsReport.tabulate results None None)))
  = [[Table.Text "agency2"; Table.Text "issuer2"; Table.Text "1";
      Table.Number 1000; Table.Number 0; Table.Number 1000]]
  /\ DailyAuthsReport.simplifyVNodes
       (Table.body (DailyAuthsReport.tabulate results (Some "agency2") None))
     = [[Table.Text "agency2"; Table.Text "issuer2"; Table.Text "1";
         Table.Number 1000; Table.Number 1000]].
Proof. split; reflexivity. Qed.

End AggregateLaws.

(* ================================================================== *)
(** * The order of the rows *)
(* ================================================================== *)

Module RowOrder.
Import Js D3Array Table StringOrder JsFacts GroupFacts OrderFacts.

(** The agency and the issuer a row of the daily-auths table shows: its
    first cell, and the title of its app cell. *)
Definition authsKeys (row : list Cell) : string * string :=
  match row with
  | Text agency :: Span (Some issuer) _ _ _ :: _ => (agency, issuer)
  | _ => ("", "")
  end.

(** The agency a row of the table by agency links to. *)
Definition agencyOf (row : list Cell) : string :=
  match row with
  | Link _ [Text agency] :: _ => agency
  | _ => ""
  end.

(** The agency and the friendly name a row of the funnel table shows. *)
Definition funnelKeys (row : list Cell) : string * string :=
  match row with
  | Text agency :: Span _ _ [_; friendlyName] _ :: _ => (agency, friendlyName)
  | _ => ("", "")
  end.

(** Ascending by the first of two keys, then by the second. *)
Definition byKeys (keys : list Cell -> string * string) (r1 r2 : list Cell) : Prop :=
  lexLe (fst (keys r1)) (fst (keys r2)) (snd (keys r1)) (snd (keys r2)).

Lemma onBins_keys {K B C : Type} (f : B -> C) (g : list (K * B)) :
  List.map fst (onBins f g) = List.map fst g.
Proof. unfold onBins. rewrite map_map. reflexivity. Qed.

Lemma StronglySorted_all {A : Type} (R : A -> A -> Prop) (l : list A) :
  (forall x y, In x l -> In y l -> R x y) -> StronglySorted R l.
Proof.
  induction l as [|x l IH]; intros H; constructor.
  - apply IH. intros. apply H; now right.
  - apply Forall_forall. intros y Hy. apply H; [now left|now right].
Qed.

Lemma le_refl (a : string) : le a a.
Proof. apply le_lt_or_eq. now right. Qed.

Lemma auths_body_sorted results filterAgency filterIal :
  StronglySorted (byKeys authsKeys)
                 (body (DailyAuthsReport.tabulate results filterAgency filterIal)).
Proof.
  unfold DailyAuthsReport.tabulate. cbn [body].
  set (filtered := filter _ _).
  set (days := DailyAuthsReport.daysOf filtered).
  set (names := fold_left _ filtered []).
  apply StronglySorted_flat_map
    with (Q := fun x y : string * list (string * list (Z * Bin _)) =>
                 lt (fst x) (fst y)).
  - apply sort_byKey_sorted. rewrite onBins_keys.
    apply (group_keys_NoDup String.eqb AggregateFacts.String_eqb_eq).
  - intros [a issuers] Hin. apply In_sort in Hin.
    unfold onBins in Hin. apply in_map_iff in Hin.
    destruct Hin as ([a' bA] & Heq & _). cbn [fst snd] in Heq.
    injection Heq as -> <-.
    apply StronglySorted_flat_map
      with (Q := fun x y : string * list (Z * Bin _) => lt (fst x) (fst y)).
    + apply sort_byKey_sorted. rewrite map_map. cbn [fst].
      apply (group_keys_NoDup String.eqb AggregateFacts.String_eqb_eq).
    + intros [i ials] _. apply StronglySorted_all.
      intros x y Hx Hy. apply in_map_iff in Hx, Hy.
      destruct Hx as ([l1 d1] & <- & _). destruct Hy as ([l2 d2] & <- & _).
      right. split; [reflexivity|apply le_refl].
    + intros [i1 ials1] [i2 ials2] x y Hlt Hx Hy. cbn [fst] in Hlt.
      apply in_map_iff in Hx, Hy.
      destruct Hx as ([l1 d1] & <- & _). destruct Hy as ([l2 d2] & <- & _).
      right. split; [reflexivity|]. apply le_lt_or_eq. now left.
  - intros [a1 is1] [a2 is2] x y Hlt Hx Hy. cbn [fst] in Hlt.
    apply in_flat_map in Hx, Hy.
    destruct Hx as ([i1 ials1] & _ & Hx). destruct Hy as ([i2 ials2] & _ & Hy).
    apply in_map_iff in Hx, Hy.
    destruct Hx as ([l1 d1] & <- & _). destruct Hy as ([l2 d2] & <- & _).
    left. exact Hlt.
Qed.

Lemma sumByAgency_body_sorted (Location : Type)
      (agencyHref : Location -> string -> string) results filterIal location :
  StronglySorted (fun r1 r2 => le (agencyOf r1) (agencyOf r2))
    (body (DailyAuthsReport.tabulateSumByAgency agencyHref results filterIal location)).
Proof.
  unfold DailyAuthsReport.tabulateSumByAgency. cbn [body].
  set (filtered := filter _ _).
  set (days := DailyAuthsReport.daysOf filtered).
  apply StronglySorted_flat_map
    with (Q := fun x y : string * list (Z * list (string * Z)) =>
                 lt (fst x) (fst y)).
  - apply sort_byKey_sorted. rewrite onBins_keys.
    apply (group_keys_NoDup String.eqb AggregateFacts.String_eqb_eq).
  - intros [a ials] _. apply StronglySorted_all.
    intros x y Hx Hy. apply in_map_iff in Hx, Hy.
    destruct Hx as ([l1 d1] & <- & _). destruct Hy as ([l2 d2] & <- & _).
    apply le_refl.
  - intros [a1 is1] [a2 is2] x y Hlt Hx Hy. cbn [fst] in Hlt.
    apply in_map_iff in Hx, Hy.
    destruct Hx as ([l1 d1] & <- & _). destruct Hy as ([l2 d2] & <- & _).
    apply le_lt_or_eq. now left.
Qed.

Lemma funnel_table_body_sorted formatWithCommas formatAsPercent color issuerColor
      rows funnelMode :
  StronglySorted (byKeys funnelKeys)
    (body (DailyDropoffsTable.tabulate formatWithCommas formatAsPercent color
                                       issuerColor rows funnelMode)).
Proof.
  unfold DailyDropoffsTable.tabulate. cbn [body].
  apply StronglySorted_map. unfold byKeys. cbn [funnelKeys app fst snd].
  apply (sort_lex_sorted (@DailyDropoffsReport.agency string)
                         (@DailyDropoffsReport.friendly_name string)).
Qed.

Lemma funnel_body_order formatWithCommas formatAsPercent color issuerColor
      rows funnelMode filterAgency :
  List.map authsKeys
      (body (DailyDropoffsReport.tabulate formatWithCommas formatAsPercent color
                                          issuerColor (Some rows) funnelMode filterAgency))
  = List.map (fun r => (DailyDropoffsReport.agency r, DailyDropoffsReport.issuer r))
        (DailyDropoffsTable.filterAgency filterAgency rows).
Proof.
  unfold DailyDropoffsReport.tabulate. cbn [body]. rewrite map_map. reflexivity.
Qed.

(** C6, as the code has it. The rows of the daily-auths table are
    ascending by agency and, within an agency, by issuer; those of the
    table by agency are ascending by agency; those of the funnel table
    component are ascending by agency and, within an agency, by friendly
    name. [aggregate] returns its rows ascending by issuer, whatever their
    agencies, and the funnel [tabulate] of the report keeps the order of
    the rows it is given. Strings compare by code units, so case
    matters. *)
Theorem rows_sorted :
  (forall results filterAgency filterIal,
      StronglySorted (byKeys authsKeys)
        (body (DailyAuthsReport.tabulate results filterAgency filterIal)))
  /\ (forall (Location : Type) (agencyHref : Location -> string -> string)
             results filterIal location,
         StronglySorted (fun r1 r2 => le (agencyOf r1) (agencyOf r2))
           (body (DailyAuthsReport.tabulateSumByAgency
                    agencyHref results filterIal location)))
  /\ (forall formatWithCommas formatAsPercent color issuerColor rows funnelMode,
         StronglySorted (byKeys funnelKeys)
           (body (DailyDropoffsTable.tabulate formatWithCommas formatAsPercent color
                                              issuerColor rows funnelMode)))
  /\ (forall rows,
         StronglySorted
           (fun x y => lt (DailyDropoffsReport.issuer x) (DailyDropoffsReport.issuer y))
           (DailyDropoffsReport.aggregate rows))
  /\ (forall formatWithCommas formatAsPercent color issuerColor
             rows funnelMode filterAgency,
         List.map authsKeys
             (body (DailyDropoffsReport.tabulate formatWithCommas formatAsPercent color
                      issuerColor (Some rows) funnelMode filterAgency))
         = List.map (fun r => (DailyDropoffsReport.agency r, DailyDropoffsReport.issuer r))
               (DailyDropoffsTable.filterAgency filterAgency rows))
  /\ ascending "Zebra" "apple" = -1 /\ ascending "apple" "Zebra" = 1.
Proof.
  split; [exact auths_body_sorted|].
  split; [exact sumByAgency_body_sorted|].
  split; [exact funnel_table_body_sorted|].
  split; [exact AggregateFacts.aggregate_sorted|].
  split; [exact funnel_body_order|].
  split; reflexivity.
Qed.

(** Two issuers whose agencies sort the other way: [aggregate] returns
    them by issuer, and the funnel table of the report shows the agencies
    in that order, descending. *)
Definition crossed : list DailyDropoffsReport.DailyDropoffsRow :=
  [ DailyDropoffsReport.mkRow "issuer2" "app2" "iaa" "agency1" 0 0
      (AggregateLaws.counts 1);
    DailyDropoffsReport.mkRow "issuer1" "app1" "iaa" "agency2" 0 0
      (AggregateLaws.counts 2) ].

Lemma aggregate_not_sorted_by_agency :
  List.map (fun r => (DailyDropoffsReport.agency r, DailyDropoffsReport.issuer r))
      (DailyDropoffsReport.aggregate crossed)
  = [("agency2", "issuer1"); ("agency1", "issuer2")]
  /\ List.map authsKeys
         (body (DailyDropoffsReport.tabulate
                  TableShape.noFormat TableShape.noPercent TableShape.noPercent
                  TableShape.noColor
                  (Some (DailyDropoffsReport.aggregate crossed))
                  DailyDropoffsReport.OVERALL None))
     = [("agency2", "issuer1"); ("agency1", "issuer2")]
  /\ ascending "agency2" "agency1" = 1.
Proof. repeat split. Qed.

End RowOrder.

(* ================================================================== *)
(** * The cells of the daily-auths tables *)
(* ================================================================== *)

Module AuthsCells.
Import Js D3Array D3Time Table JsFacts GroupFacts.
Import DailyAuthsReport.

Definition String_eqb_eq := AggregateFacts.String_eqb_eq.

(** The rows [tabulate] and [tabulateSumByAgency] keep. *)
Definition kept (filterAgency : option string) (filterIal : option Z)
           (results : option (list ProcessedResult)) : list ProcessedResult :=
  filter (fun d =>
            (negb (truthy_str filterAgency) || eqAgency (agency d) filterAgency)
            && (negb (truthy_num filterIal) || eqIal (ial d) filterIal))
         (match results with Some r => r | None => [] end).

Definition keptIal (filterIal : option Z) (results : option (list ProcessedResult))
  : list ProcessedResult :=
  filter (fun d => negb (truthy_num filterIal) || eqIal (ial d) filterIal)
         (match results with Some r => r | None => [] end).

(** The rows of the group of an agency, an issuer and an assurance level,
    and those of one day among them. *)
Definition sameGroup (a i : string) (l : Z) (d : ProcessedResult) : bool :=
  String.eqb (agency d) a && String.eqb (issuer d) i && (ial d =? l).

Definition groupOn (rows : list ProcessedResult) (a i : string) (l day : Z)
  : list ProcessedResult :=
  filter (fun d => date d =? day) (filter (sameGroup a i l) rows).

(** The count of the first row, 0 when there is none. *)
Definition firstCount (rows : list ProcessedResult) : Z :=
  match rows with
  | d :: _ => count d
  | [] => 0
  end.

(** The friendly name the table shows for an issuer: that of the last row
    of the issuer. *)
Definition friendlyNameOf (rows : list ProcessedResult) (i : string) : option string :=
  option_map friendly_name (find (fun d => String.eqb (issuer d) i) (rev rows)).

(** The row of a group in the table of [tabulate]. *)
Definition authsRow (rows : list ProcessedResult) (a i : string) (l : Z) : list Cell :=
  let cells := List.map (fun day => firstCount (groupOn rows a i l day)) (daysOf rows) in
  [Text a; Span (Some i) None [] (child (friendlyNameOf rows i)); Text (String_of l)]
    ++ List.map Number cells ++ [Number (sumOf (fun n => n) cells)].

(** The rows of an agency and an assurance level on the calendar day of
    [day], and the row of the two in the table by agency. *)
Definition agencyOn (rows : list ProcessedResult) (a : string) (l day : Z)
  : list ProcessedResult :=
  filter (fun d => String.eqb (yearMonthDayFormat (date d)) (yearMonthDayFormat day))
         (filter (fun d => ial d =? l) (filter (fun d => String.eqb (agency d) a) rows)).

Definition agencyRow (href : string) (rows : list ProcessedResult) (a : string) (l : Z)
  : list Cell :=
  let cells := List.map (fun day => sumOf count (agencyOn rows a l day)) (daysOf rows) in
  [Link href [Text a]; Text (String_of l)]
    ++ List.map Number cells ++ [Number (sumOf (fun n => n) cells)].

Lemma filter_and {A : Type} (p q : A -> bool) (l : list A) :
  filter q (filter p l) = filter (fun x => p x && q x) l.
Proof.
  induction l as [|x l IH]; simpl; [reflexivity|].
  destruct (p x); simpl; [destruct (q x)|]; now rewrite IH.
Qed.

Lemma total_sum (dayCounts : list Z) : total dayCounts = sumOf (fun n => n) dayCounts.
Proof.
  unfold total.
  rewrite (fold_left_sum (fun n => n) dayCounts 0). lia.
Qed.

Lemma firstCount_sum (rows : list ProcessedResult) :
  (List.length rows <= 1)%nat -> firstCount rows = sumOf count rows.
Proof.
  destruct rows as [|d [|d' rows]]; simpl; intros H; lia.
Qed.

(** Looking a key up in the bins of a [rollup]. *)
Lemma map_get_keyed {K V : Type} (eqb : K -> K -> bool)
      (eqb_eq : forall a b, eqb a b = true <-> a = b)
      (G : K -> V) (U : list K) (k : K) :
  map_get eqb (List.map (fun k' => (k', G k')) U) k
  = if existsb (eqb k) U then Some (G k) else None.
Proof.
  induction U as [|k' U IH]; [reflexivity|]. cbn [List.map map_get existsb].
  destruct (eqb k k') eqn:Hk; cbn [orb]; [|exact IH].
  apply eqb_eq in Hk. now subst.
Qed.

Lemma rollup_get {A K : Type} (eqb : K -> K -> bool)
      (eqb_eq : forall a b, eqb a b = true <-> a = b)
      (key : A -> K) (f : A -> Z) (l : list A) (k : K) :
  match map_get eqb
          (onBins (fun bin => fold_left (fun sum d => sum + f d) (values bin) 0)
                  (group eqb key l)) k with
  | Some n => or0 n
  | None => 0
  end
  = sumOf f (filter (fun x => eqb (key x) k) l).
Proof.
  assert (Hview : onBins (fun bin => fold_left (fun sum d => sum + f d) (values bin) 0)
                         (group eqb key l)
                  = List.map (fun k' => (k', sumOf f (filter (fun x => eqb (key x) k') l)))
                        (uniq eqb (List.map key l))).
  { unfold onBins.
    transitivity (List.map (fun kv : K * list A => (fst kv, sumOf f (snd kv)))
                      (view (group eqb key l))).
    - unfold view. rewrite map_map. apply map_ext. intros [k' b]. cbn [fst snd].
      now rewrite fold_left_sum.
    - rewrite (group_view eqb eqb_eq), map_map. reflexivity. }
  rewrite Hview, (map_get_keyed eqb eqb_eq).
  destruct (existsb (eqb k) (uniq eqb (List.map key l))) eqn:Hex.
  - apply or0_id.
  - destruct (filter (fun x => eqb (key x) k) l) as [|y r] eqn:Hf; [reflexivity|].
    assert (Hy : In y (filter (fun x => eqb (key x) k) l)) by (rewrite Hf; now left).
    apply filter_In in Hy. destruct Hy as [Hy1 Hy2]. apply eqb_eq in Hy2.
    assert (Hin : In k (uniq eqb (List.map key l))).
    { apply (In_uniq eqb eqb_eq). rewrite <- Hy2. now apply in_map. }
    apply (existsb_eqb eqb eqb_eq) in Hin. congruence.
Qed.

End AuthsCells.

Module AuthsRows.
Import Js D3Array D3Time Table JsFacts GroupFacts.
Import DailyAuthsReport AuthsCells.

Section Grouped.
Variable F : list ProcessedResult.

(** The three levels of [group(filteredResults, agency, issuer, ial)]. *)
Definition grouped : list (string * list (string * list (Z * Bin ProcessedResult))) :=
  onBins (fun byAgency =>
            onBins (fun byIssuer => group Z.eqb ial (values byIssuer))
                   (group String.eqb issuer (values byAgency)))
         (group String.eqb agency F).

Lemma grouped_bin a issuers i ials l data :
  In (a, issuers) (sort (byKey ascending) grouped) ->
  In (i, ials) (sort (byKey ascending) issuers) ->
  In (l, data) ials ->
  values data = filter (sameGroup a i l) F
  /\ In (first data) F
  /\ agency (first data) = a /\ issuer (first data) = i /\ ial (first data) = l.
Proof.
  intros Ha Hi Hl. apply In_sort in Ha. apply In_sort in Hi.
  unfold grouped, onBins in Ha. apply in_map_iff in Ha.
  destruct Ha as ([a' bA] & Heq & Ha). cbn [fst snd] in Heq.
  injection Heq as -> <-.
  unfold onBins in Hi. apply in_map_iff in Hi.
  destruct Hi as ([i' bI] & Heq & Hi). cbn [fst snd] in Heq.
  injection Heq as -> <-.
  apply (group_bin String.eqb String_eqb_eq) in Ha.
  apply (group_bin String.eqb String_eqb_eq) in Hi.
  apply (group_bin Z.eqb Z.eqb_eq) in Hl.
  assert (Hv : values data = filter (sameGroup a i l) F).
  { rewrite Hl, Hi, Ha, !filter_and. apply filter_ext. intros x.
    unfold sameGroup. now rewrite andb_assoc. }
  split; [exact Hv|].
  assert (Hf : In (first data) (values data)) by now left.
  rewrite Hv in Hf. apply filter_In in Hf. destruct Hf as [Hf Hg].
  split; [exact Hf|]. unfold sameGroup in Hg.
  apply andb_prop in Hg. destruct Hg as [Hg H3].
  apply andb_prop in Hg. destruct Hg as [H1 H2].
  apply String.eqb_eq in H1, H2. apply Z.eqb_eq in H3. auto.
Qed.

Lemma grouped_complete d :
  In d F ->
  exists issuers ials data,
    In (agency d, issuers) (sort (byKey ascending) grouped)
    /\ In (issuer d, ials) (sort (byKey ascending) issuers)
    /\ In (ial d, data) ials.
Proof.
  intros Hd.
  destruct (group_complete String.eqb String_eqb_eq agency _ _ Hd) as (bA & HA).
  assert (HdA : In d (values bA)).
  { rewrite (group_bin String.eqb String_eqb_eq _ _ _ _ HA).
    apply filter_In. split; [exact Hd|apply String.eqb_refl]. }
  destruct (group_complete String.eqb String_eqb_eq issuer _ _ HdA) as (bI & HI).
  assert (HdI : In d (values bI)).
  { rewrite (group_bin String.eqb String_eqb_eq _ _ _ _ HI).
    apply filter_In. split; [exact HdA|apply String.eqb_refl]. }
  destruct (group_complete Z.eqb Z.eqb_eq ial _ _ HdI) as (data & HL).
  exists (onBins (fun byIssuer => group Z.eqb ial (values byIssuer))
                 (group String.eqb issuer (values bA))),
         (group Z.eqb ial (values bI)), data.
  split; [|split; [|exact HL]].
  - apply In_sort. unfold grouped, onBins. apply in_map_iff.
    exists (agency d, bA). split; [reflexivity|exact HA].
  - apply In_sort. unfold onBins. apply in_map_iff.
    exists (issuer d, bI). split; [reflexivity|exact HI].
Qed.

(** The row the code builds for a bin is the row of its group. *)
Lemma row_of_bin a i l data :
  values data = filter (sameGroup a i l) F ->
  (let dayCounts :=
     List.map (fun date =>
            match filter (fun d => DailyAuthsReport.date d =? date) (values data) with
            | d :: _ => count d
            | [] => 0
            end) (daysOf F) in
   [Text a;
    Span (Some i) None []
         (child (map_get String.eqb
                   (fold_left (fun m d => map_set String.eqb m (issuer d) (friendly_name d))
                              F []) i));
    Text (String_of l)]
     ++ List.map Number dayCounts ++ [Number (total dayCounts)])
  = authsRow F a i l.
Proof.
  intros Hv. cbv zeta. unfold authsRow. rewrite total_sum, Hv.
  rewrite (map_get_fold_set String.eqb String_eqb_eq).
  unfold friendlyNameOf, groupOn, firstCount.
  destruct (find (fun d => String.eqb (issuer d) i) (rev F)); reflexivity.
Qed.
End Grouped.

(** The rows of [tabulate] are the rows of the groups of the rows it
    keeps. *)
Lemma tabulate_rows results filterAgency filterIal row :
  let F := kept filterAgency filterIal results in
  In row (body (tabulate results filterAgency filterIal))
  <-> exists d, In d F /\ row = authsRow F (agency d) (issuer d) (ial d).
Proof.
  intros F. unfold tabulate. cbn [body].
  fold (kept filterAgency filterIal results). fold F. fold (grouped F).
  split.
  - intros H. apply in_flat_map in H. destruct H as ([a issuers] & Ha & H).
    apply in_flat_map in H. destruct H as ([i ials] & Hi & H).
    apply in_map_iff in H. destruct H as ([l data] & Hrow & Hl).
    destruct (@grouped_bin _ _ _ _ _ _ _ Ha Hi Hl) as (Hv & Hin & <- & <- & <-).
    exists (first data). split; [exact Hin|].
    rewrite <- Hrow. apply row_of_bin. exact Hv.
  - intros (d & Hd & ->).
    destruct (@grouped_complete F d Hd) as (issuers & ials & data & Ha & Hi & Hl).
    destruct (@grouped_bin _ _ _ _ _ _ _ Ha Hi Hl) as (Hv & _).
    apply in_flat_map. exists (agency d, issuers). split; [exact Ha|].
    apply in_flat_map. exists (issuer d, ials). split; [exact Hi|].
    apply in_map_iff. exists (ial d, data). split; [|exact Hl].
    apply row_of_bin. exact Hv.
Qed.

Section ByAgency.
Variable Location : Type.
Variable agencyHref : Location -> string -> string.

(** The rows of [tabulateSumByAgency] are the rows of the agencies and
    assurance levels of the rows it keeps. *)
Lemma tabulateSumByAgency_rows results filterIal location row :
  let F := keptIal filterIal results in
  In row (body (tabulateSumByAgency agencyHref results filterIal location))
  <-> exists d, In d F
                /\ row = agencyRow (agencyHref location (agency d)) F (agency d) (ial d).
Proof.
  intros F. unfold tabulateSumByAgency. cbn [body].
  fold (keptIal filterIal results). fold F.
  assert (Hrow : forall a l (bI : Bin ProcessedResult),
             values bI = filter (fun d => ial d =? l)
                                (filter (fun d => String.eqb (agency d) a) F) ->
             (let ialDays :=
                onBins (fun bin => fold_left (fun sum d => sum + count d) (values bin) 0)
                       (group String.eqb (fun d => yearMonthDayFormat (date d))
                              (values bI)) in
              let dayCounts :=
                List.map (fun date =>
                       match map_get String.eqb ialDays (yearMonthDayFormat date) with
                       | Some n => or0 n
                       | None => 0
                       end) (daysOf F) in
              [Link (agencyHref location a) [Text a]; Text (String_of l)]
                ++ List.map Number dayCounts ++ [Number (total dayCounts)])
             = agencyRow (agencyHref location a) F a l).
  { intros a l bI Hv. cbv zeta. unfold agencyRow. rewrite total_sum.
    erewrite (map_ext _ (fun day => sumOf count (agencyOn F a l day)));
      [reflexivity|].
    intros day. rewrite (rollup_get String.eqb String_eqb_eq).
    unfold agencyOn. now rewrite Hv. }
  split.
  - intros H. apply in_flat_map in H. destruct H as ([a ials] & Ha & H).
    apply in_map_iff in H. destruct H as ([l ialDays] & Hr & Hl).
    apply In_sort in Ha. unfold onBins in Ha at 1. apply in_map_iff in Ha.
    destruct Ha as ([a' bA] & Heq & Ha). cbn [fst snd] in Heq.
    injection Heq as -> <-.
    unfold onBins in Hl at 1. apply in_map_iff in Hl.
    destruct Hl as ([l' bI] & Heq & Hl). cbn [fst snd] in Heq.
    injection Heq as -> <-.
    pose proof (group_bin Z.eqb Z.eqb_eq _ _ _ _ Hl) as HvI.
    pose proof (group_bin String.eqb String_eqb_eq _ _ _ _ Ha) as HvA.
    rewrite HvA in HvI.
    assert (Hf : In (first bI) (values bI)) by now left.
    rewrite HvI in Hf. apply filter_In in Hf. destruct Hf as [Hf Hl'].
    apply filter_In in Hf. destruct Hf as [Hf Ha'].
    apply String.eqb_eq in Ha'. apply Z.eqb_eq in Hl'.
    exists (first bI). split; [exact Hf|].
    rewrite Ha', Hl', <- Hr. exact (Hrow a l bI HvI).
  - intros (d & Hd & ->).
    destruct (group_complete String.eqb String_eqb_eq agency _ _ Hd) as (bA & HA).
    pose proof (group_bin String.eqb String_eqb_eq _ _ _ _ HA) as HvA.
    assert (HdA : In d (values bA)).
    { rewrite HvA. apply filter_In. split; [exact Hd|apply String.eqb_refl]. }
    destruct (group_complete Z.eqb Z.eqb_eq ial _ _ HdA) as (bI & HI).
    pose proof (group_bin Z.eqb Z.eqb_eq _ _ _ _ HI) as HvI.
    rewrite HvA in HvI.
    apply in_flat_map.
    eexists (agency d, _). split.
    + apply In_sort. unfold onBins at 1. apply in_map_iff.
      exists (agency d, bA). split; [reflexivity|exact HA].
    + apply in_map_iff. eexists (ial d, _). split.
      * exact (Hrow (agency d) (ial d) bI HvI).
      * unfold onBins at 1. apply in_map_iff.
        exists (ial d, bI). split; [reflexivity|exact HI].
Qed.
End ByAgency.

End AuthsRows.

Module GroupSums.
Import Js D3Array D3Time Table JsFacts GroupFacts.
Import AuthsCells.

(** C1, as the code has it. [tabulate] has one kind of body row: the row
    of a group (agency, issuer, assurance level) of the rows it keeps, and
    every such group has its row; the cell of a day is the count of the
    first row of the group on that day, 0 when there is none, which is the
    sum of the counts of the group on that day whenever the group has at
    most one row that day. [tabulateSumByAgency] groups by agency and
    assurance level, and the cell of a day is the sum of the counts of the
    rows of the group on that calendar day. [aggregate] returns one row
    per issuer of the list, and every step of it is the sum of that step
    over the rows of the issuer, a missing count being 0. *)
Theorem grouping_sums :
  (forall results filterAgency filterIal row,
      let F := kept filterAgency filterIal results in
      In row (body (DailyAuthsReport.tabulate results filterAgency filterIal))
      <-> exists d, In d F
                    /\ row = authsRow F (DailyAuthsReport.agency d)
                                      (DailyAuthsReport.issuer d)
                                      (DailyAuthsReport.ial d))
  /\ (forall rows a i l day,
         (List.length (groupOn rows a i l day) <= 1)%nat ->
         firstCount (groupOn rows a i l day)
         = sumOf DailyAuthsReport.count (groupOn rows a i l day))
  /\ (forall (Location : Type) (agencyHref : Location -> string -> string)
             results filterIal location row,
         let F := keptIal filterIal results in
         In row (body (DailyAuthsReport.tabulateSumByAgency
                         agencyHref results filterIal location))
         <-> exists d, In d F
                       /\ row = agencyRow (agencyHref location (DailyAuthsReport.agency d))
                                          F (DailyAuthsReport.agency d)
                                          (DailyAuthsReport.ial d))
  /\ (forall rows out,
         In out (DailyDropoffsReport.aggregate rows) ->
         exists r0 rest,
           filter (fun r => String.eqb (DailyDropoffsReport.issuer r)
                                       (DailyDropoffsReport.issuer out)) rows
           = r0 :: rest
           /\ forall k,
               DailyDropoffsReport.get out k
               = Some (sumOf (fun r => DailyDropoffsReport.count_or0
                                         (DailyDropoffsReport.get r k))
                             (r0 :: rest)))
  /\ (forall rows r,
         In r rows ->
         exists out, In out (DailyDropoffsReport.aggregate rows)
                     /\ DailyDropoffsReport.issuer out = DailyDropoffsReport.issuer r)
  /\ (forall rows,
         NoDup (List.map (@DailyDropoffsReport.issuer string)
                    (DailyDropoffsReport.aggregate rows))).
Proof.
  split; [exact AuthsRows.tabulate_rows|].
  split; [intros; now apply firstCount_sum|].
  split; [exact AuthsRows.tabulateSumByAgency_rows|].
  split.
  - intros rows out Hin.
    destruct (AggregateFacts.aggregate_In _ _ Hin)
      as (r0 & rest & Hf & _ & _ & _ & _ & _ & _ & Hget).
    exists r0, rest. split; [exact Hf|exact Hget].
  - split; [exact AggregateFacts.aggregate_complete|].
    exact AggregateFacts.aggregate_issuers_NoDup.
Qed.

Lemma grouping_sums_witness :
  let rows := TabulateExample.rows "app1" "app1" "app1" in
  firstCount (groupOn rows "agency1" "issuer1" 1 TabulateExample.jan2)
  = sumOf DailyAuthsReport.count
          (groupOn rows "agency1" "issuer1" 1 TabulateExample.jan2).
Proof.
  apply (proj1 (proj2 grouping_sums)). simpl. lia.
Defined.

(** Two rows of one group on one day, with counts 1 and 2: the cell of the
    day is 1, the count of the first, where the sum is 3. *)
Definition twoOnOneDay : list DailyAuthsReport.ProcessedResult :=
  [ DailyAuthsReport.mkProcessed 1 1 "issuer1" None "app1" "agency1" TabulateExample.jan1;
    DailyAuthsReport.mkProcessed 2 1 "issuer1" None "app1" "agency1" TabulateExample.jan1 ].

Lemma tabulate_cell_first_not_sum :
  body (DailyAuthsReport.tabulate (Some twoOnOneDay) None None)
  = [ [Text "agency1"; Span (Some "issuer1") None [] [Text "app1"]; Text "1";
       Number 1; Number 1] ]
  /\ sumOf DailyAuthsReport.count
           (groupOn twoOnOneDay "agency1" "issuer1" 1 TabulateExample.jan1) = 3
  /\ Number 1 <> Number 3.
Proof. repeat split. discriminate. Qed.

End GroupSums.
